(** * Vote submission pipeline of the mobile voting client

    Shallow embedding of [src/services/vote-submission.service.ts]
    (class [VoteSubmissionService]) and of the parts of
    [src/lib/blockchain/real-blockchain-service.ts] it calls
    ([connectWallet], [hasVoterVoted], [isVoterRegistered],
    [registerVoter], [castVote]).

    Conventions of the embedding:
    - JS strings are [string]; an absent optional string field
      ([undefined]) is modelled as the empty string, since the code only
      tests these fields for truthiness, and both are falsy.
    - JS numbers used as integers (timestamps, delays, counters) are [Z].
    - The three [Map]s of the service are [gmap string _].
    - Every answer of the outside world during one [submitVote] call
      (clock readings, [Math.random], HTTP responses, RPC results) is a
      field of an [attempt_env] record; the code reads them at the place
      where it awaits the corresponding call.
    - A thrown [Error] is the [Err] outcome of a small state/exception
      monad; [try/catch] is [catch_err]. *)

From stdpp Require Import base gmap strings list.
From Stdlib Require Import ZArith String Ascii QArith_base.

Local Open Scope Z_scope.

Local Notation "s1 +s+ s2" := (String.append s1 s2) (at level 60, right associativity).

(** ** JS helpers *)

(** JS truthiness of a string ([''] and [undefined] are falsy). *)
Definition truthy (s : string) : bool :=
  match s with EmptyString => false | _ => true end.

(** [a || b] on strings. *)
Definition or_str (a b : string) : string := if truthy a then a else b.

(** Digit of [Number.prototype.toString(radix)]. *)
Definition radix_digit (d : Z) : ascii :=
  if d <? 10 then ascii_of_nat (48 + Z.to_nat d) else ascii_of_nat (87 + Z.to_nat d).

Fixpoint radix_digits (radix : Z) (fuel : nat) (n : Z) (acc : string) : string :=
  match fuel with
  | O => acc
  | S f =>
      let acc' := String (radix_digit (n mod radix)) acc in
      if n <? radix then acc' else radix_digits radix f (n / radix) acc'
  end.

(** [n.toString(radix)] for an integer [n] and [2 <= radix <= 36]. *)
Definition to_radix_string (radix n : Z) : string :=
  let m := Z.abs n in
  let digits := radix_digits radix (S (Z.to_nat (Z.log2 m))) m EmptyString in
  if n <? 0 then "-" +s+ digits else digits.

Example to_radix_string_36 : to_radix_string 36 1700000000000 = "loyw3v28"%string.
Proof. vm_compute. reflexivity. Qed.

Example to_radix_string_10 : to_radix_string 10 1700000000123 = "1700000000123"%string.
Proof. vm_compute. reflexivity. Qed.

(** The result of an awaited call: resolved with a value, or rejected
    with an [Error] whose message is given. *)
Inductive call_result (A : Type) : Type :=
| COk (a : A)
| CThrow (msg : string).
Arguments COk {A} a.
Arguments CThrow {A} msg.

(** A [fetch] call: it throws (network failure) or answers with
    [ok], [statusText] and the field of [response.json()] the code reads
    (or the failure of [json()]). *)
Inductive http_result : Type :=
| HttpThrow (msg : string)
| HttpResp (ok : bool) (statusText : string) (body : call_result string).

(** ** Data model of [vote-submission.service.ts] *)

(** [VoteSubmissionRequest], with the two fields [voterAddress] and
    [token] that the code reads (and that its caller passes) although
    the interface does not declare them. [position] and [metadata] are
    never read. *)
Record VoteSubmissionRequest := mkRequest {
  electionId : string;
  candidateId : string;
  voterId : string;
  verificationCode : string;
  biometricHash : string;
  deviceId : string;
  timestamp : Z;
  voterAddress : string;
  token : string
}.

Record VoteSubmissionResponse := mkResponse {
  success : bool;
  r_voteId : option string;
  r_transactionHash : option string;
  r_blockNumber : option Z;
  confirmationId : option string;
  message : option string;
  r_error : option string;
  retryAfter : option Z
}.

Definition empty_response : VoteSubmissionResponse :=
  mkResponse false None None None None None None None.

Inductive status_kind : Type :=
| Pending | Processing | Confirmed | Failed | Rejected.

Global Instance status_kind_eq_dec : EqDecision status_kind.
Proof. solve_decision. Defined.

Record VoteSubmissionStatus := mkStatus {
  voteId : string;
  status : status_kind;
  transactionHash : option string;
  blockNumber : option Z;
  confirmationCount : option Z;
  s_error : option string;
  submittedAt : Z;
  confirmedAt : option Z
}.

(** [Partial<VoteSubmissionStatus>] as used by the calls of
    [updateStatus]: a field given as [Some] overrides the current one. *)
Record StatusUpdates := mkUpdates {
  u_transactionHash : option string;
  u_blockNumber : option Z;
  u_confirmationCount : option Z;
  u_error : option string;
  u_confirmedAt : option Z
}.

Definition no_updates : StatusUpdates := mkUpdates None None None None None.

Definition override {A} (u cur : option A) : option A :=
  match u with Some _ => u | None => cur end.

(** [{ ...currentStatus, status, ...updates }] *)
Definition apply_updates (cur : VoteSubmissionStatus) (st : status_kind)
    (u : StatusUpdates) : VoteSubmissionStatus :=
  mkStatus (voteId cur) st
    (override (u_transactionHash u) (transactionHash cur))
    (override (u_blockNumber u) (blockNumber cur))
    (override (u_confirmationCount u) (confirmationCount cur))
    (override (u_error u) (s_error cur))
    (submittedAt cur)
    (override (u_confirmedAt u) (confirmedAt cur)).

(** [private generateSubmissionId(request)]: [rnd] is
    [Math.random().toString(36).substring(2, 8)]. *)
Definition generateSubmissionId (request : VoteSubmissionRequest) (rnd : string) : string :=
  "vote_" +s+ to_radix_string 36 (timestamp request) +s+ "_" +s+ rnd.

(** ** [RealBlockchainService.hasVoterVoted]

    [provider_ok] is [this.provider !== null]; [voters] is the outcome of
    the view call [contract.voters(voterAddress)]. *)
Definition hasVoterVoted (provider_ok : bool) (voters : call_result bool) : call_result bool :=
  if negb provider_ok then COk false
  else match voters with
       | COk hasVoted => COk hasVoted
       | CThrow _ => COk false
       end.

(** [RealBlockchainService.isVoterRegistered]: same shape, same view call. *)
Definition isVoterRegistered (provider_ok : bool) (voters : call_result bool) : call_result bool :=
  if negb provider_ok then COk false
  else match voters with
       | COk isRegistered => COk isRegistered
       | CThrow _ => COk false
       end.

(** [parseInt(s)] (no radix argument): [None] is [NaN]. Leading white
    space, an optional sign, then a [0x]/[0X] prefix selects base 16;
    the longest prefix of digits is read. *)
Definition digit_value (c : ascii) : Z :=
  let n := Z.of_nat (nat_of_ascii c) in
  if (48 <=? n) && (n <=? 57) then n - 48
  else if (97 <=? n) && (n <=? 122) then n - 87
  else if (65 <=? n) && (n <=? 90) then n - 55
  else 36.

Fixpoint parse_digits (radix : Z) (s : string) (acc : option Z) : option Z :=
  match s with
  | EmptyString => acc
  | String c rest =>
      let d := digit_value c in
      if d <? radix then parse_digits radix rest (Some (default 0 acc * radix + d))
      else acc
  end.

(** The white space that [parseInt] skips (ECMAScript's
    [StrWhiteSpaceChar]): TAB, LF, VT, FF, CR, SPACE and NBSP. A
    character of a [string] is read as a UTF-16 code unit below 256;
    the other white space code units (BOM, U+1680, U+2000-U+200A,
    U+2028, U+2029, U+202F, U+205F, U+3000) lie above that range. *)
Definition js_white_space (c : ascii) : bool :=
  let n := nat_of_ascii c in
  ((9 <=? n) && (n <=? 13))%nat || (n =? 32)%nat || (n =? 160)%nat.

Fixpoint trim_start (s : string) : string :=
  match s with
  | String c rest => if js_white_space c then trim_start rest else s
  | EmptyString => s
  end.

Definition parse_unsigned (s : string) : option Z :=
  match s with
  | String "0" (String c rest) =>
      if (c =? "x")%char || (c =? "X")%char then parse_digits 16 rest None
      else parse_digits 10 s None
  | _ => parse_digits 10 s None
  end.

Definition parseInt (s : string) : option Z :=
  match trim_start s with
  | String "-" rest => option_map Z.opp (parse_unsigned rest)
  | String "+" rest => parse_unsigned rest
  | t => parse_unsigned t
  end.

Example parseInt_ok : parseInt " 42abc" = Some 42.
Proof. reflexivity. Qed.
Example parseInt_nan : parseInt "candidate-1" = None.
Proof. reflexivity. Qed.
Example parseInt_vt : parseInt (String "011" "5") = Some 5.
Proof. reflexivity. Qed.
Example parseInt_nbsp : parseInt (String "160" (String "012" "-7")) = Some (-7).
Proof. reflexivity. Qed.

(** ** State of the service and of the ledger client *)

(** External calls, recorded in the order they are made. *)
Inductive ext_event : Type :=
| EvCheckExistingVote
| EvValidateHasVoterVoted (voted : bool)
| EvSubmitToBlockchain
| EvConnectWallet
| EvHasVoterVoted (voted : bool)
| EvIsVoterRegistered (registered : bool)
| EvRegisterVoterTx                (** [contract.registerVoter(...)] sent *)
| EvRegisterVoter (ok : bool)      (** [registerVoter] returned *)
| EvCastVote                       (** [castVote] called *)
| EvVoteTx                         (** [contract.vote(...)] sent *)
| EvSubmitToBackend.

(** The singleton [VoteSubmissionService] together with the fields of
    the singleton [realBlockchainService] that the pipeline uses.
    [timers] holds the pending [setTimeout(() => retrySubmission(id), delay)]
    callbacks, oldest first. *)
Record world := mkWorld {
  submissionQueue : gmap string VoteSubmissionRequest;
  statusCache : gmap string VoteSubmissionStatus;
  retryAttempts : gmap string Z;
  timers : list (Z * string);
  provider_ok : bool;
  wallet : option string;
  trace : list ext_event
}.

Definition maxRetries : Z := 3.
Definition retryDelay : Z := 5000.

(** Answers of the outside world to the calls of one [submitVote] run. *)
Record attempt_env := mkEnv {
  env_id_random : string;            (** [generateSubmissionId]'s random part *)
  env_now_submit : Z;                (** [Date.now()] for [submittedAt] *)
  env_now_validate : Z;              (** [Date.now()] in [validateSubmission] *)
  env_validate_election : http_result;     (** validation: GET /elections/{id} *)
  env_validate_voters : call_result bool;  (** validation: [contract.voters] *)
  env_election : http_result;              (** GET /elections/{id}: [contract_address] *)
  env_profile : http_result;               (** GET /users/profile: [encrypted_private_key] *)
  env_wallet_ctor : call_result string;    (** [new ethers.Wallet(key)], its address *)
  env_balance : call_result unit;          (** [provider.getBalance(address)] *)
  env_voters_voted : call_result bool;     (** [hasVoterVoted]'s [contract.voters] *)
  env_voters_registered : call_result bool;(** [isVoterRegistered]'s [contract.voters] *)
  env_register_tx : call_result (string * Z);  (** registration receipt: hash, block *)
  env_vote_tx : call_result (string * Z);      (** vote receipt: hash, block *)
  env_now_backend : Z;               (** [Date.now()] in [submitToBackend] *)
  env_backend_random : Q;            (** [Math.random()] in [submitToBackend] *)
  env_now_confirm : Z                (** [Date.now()] for [confirmedAt] *)
}.

(** ** A state and exception monad *)

Inductive outcome (A : Type) : Type :=
| Ok (a : A)
| Err (msg : string).
Arguments Ok {A} a.
Arguments Err {A} msg.

Definition M (A : Type) : Type := world -> outcome A * world.

Global Instance M_ret : MRet M := fun A a w => (Ok a, w).
Global Instance M_bind : MBind M := fun A B f m w =>
  match m w with
  | (Ok a, w') => f a w'
  | (Err e, w') => (Err e, w')
  end.

(** [throw new Error(msg)] *)
Definition throw {A} (msg : string) : M A := fun w => (Err msg, w).

(** [try { m } catch (error) { h(error.message) }] *)
Definition catch_err {A} (m : M A) (h : string -> M A) : M A := fun w =>
  match m w with
  | (Ok a, w') => (Ok a, w')
  | (Err e, w') => h e w'
  end.

Definition emit (e : ext_event) : M unit := fun w =>
  (Ok tt, mkWorld (submissionQueue w) (statusCache w) (retryAttempts w) (timers w)
                  (provider_ok w) (wallet w) (trace w ++ [e])).

Definition get_world : M world := fun w => (Ok w, w).

Definition put_world (w' : world) : M unit := fun _ => (Ok tt, w').

(** [await] of a call that resolves or rejects. *)
Definition await_call {A} (c : call_result A) : M A :=
  match c with COk a => mret a | CThrow msg => throw msg end.

Definition modify_world (f : world -> world) : M unit := fun w => (Ok tt, f w).

Definition with_queue (q : gmap string VoteSubmissionRequest) (w : world) : world :=
  mkWorld q (statusCache w) (retryAttempts w) (timers w) (provider_ok w) (wallet w) (trace w).
Definition with_cache (c : gmap string VoteSubmissionStatus) (w : world) : world :=
  mkWorld (submissionQueue w) c (retryAttempts w) (timers w) (provider_ok w) (wallet w) (trace w).
Definition with_retries (r : gmap string Z) (w : world) : world :=
  mkWorld (submissionQueue w) (statusCache w) r (timers w) (provider_ok w) (wallet w) (trace w).
Definition with_timers (t : list (Z * string)) (w : world) : world :=
  mkWorld (submissionQueue w) (statusCache w) (retryAttempts w) t (provider_ok w) (wallet w) (trace w).
Definition with_wallet (a : option string) (w : world) : world :=
  mkWorld (submissionQueue w) (statusCache w) (retryAttempts w) (timers w) (provider_ok w) a (trace w).

(** ** [RealBlockchainService] calls used by the pipeline *)

Record BlockchainVoteResponse := mkBResponse {
  b_success : bool;
  b_transactionHash : option string;
  b_blockNumber : option Z;
  b_error : option string
}.

(** A template literal [`${x}`] of an optional string. *)
Definition show_opt (o : option string) : string := default "undefined" o.

(** [connectWallet(privateKey)]: the key itself only determines the
    answers recorded in [env_wallet_ctor]. *)
Definition connectWallet (e : attempt_env) (privateKey : string) : M string :=
  emit EvConnectWallet;;
  catch_err
    (w ← get_world;
     if negb (provider_ok w) then throw "Blockchain provider not initialized"
     else
       address ← await_call (env_wallet_ctor e);
       modify_world (with_wallet (Some address));;
       _ ← await_call (env_balance e);
       mret address)
    (fun m => throw ("Failed to connect wallet: " +s+ m)).

(** [registerVoter(contractAddress)] *)
Definition registerVoter (e : attempt_env) (contractAddress : string) : M BlockchainVoteResponse :=
  catch_err
    (w ← get_world;
     match wallet w with
     | None => throw "Wallet not connected"
     | Some _ =>
         emit EvRegisterVoterTx;;
         '(h, b) ← await_call (env_register_tx e);
         mret (mkBResponse true (Some h) (Some b) None)
     end)
    (fun m => mret (mkBResponse false None None (Some m))).

(** [castVote(request)]; only [candidateId] of the request matters. *)
Definition castVote (e : attempt_env) (candidateId_ : string) : M BlockchainVoteResponse :=
  emit EvCastVote;;
  catch_err
    (w ← get_world;
     match wallet w with
     | None => throw "Wallet not connected"
     | Some _ =>
         match parseInt candidateId_ with
         | None => throw "Invalid candidate ID"
         | Some _ =>
             emit EvVoteTx;;
             '(h, b) ← await_call (env_vote_tx e);
             mret (mkBResponse true (Some h) (Some b) None)
         end
     end)
    (fun m => mret (mkBResponse false None None (Some m))).

(** ** [VoteSubmissionService] *)

Definition failure_response (msg : string) : VoteSubmissionResponse :=
  mkResponse false None None None None None (Some msg) None.

(** [await fetch(...)] *)
Definition await_fetch (r : http_result) : M (bool * string * call_result string) :=
  match r with
  | HttpThrow m => throw m
  | HttpResp ok st body => mret (ok, st, body)
  end.

(** [private submitToBlockchain(request)] *)
Definition submitToBlockchain (e : attempt_env) (request : VoteSubmissionRequest)
    : M VoteSubmissionResponse :=
  emit EvSubmitToBlockchain;;
  @catch_err VoteSubmissionResponse
    ('(ok, st, body) ← await_fetch (env_election e);
     if negb ok then throw ("Failed to get election details: " +s+ st) else
     contractAddress ← await_call body;
     if negb (truthy contractAddress) then throw "Election contract address not found" else
     '(ok2, st2, body2) ← await_fetch (env_profile e);
     if negb ok2 then throw ("Failed to get user profile: " +s+ st2) else
     key ← await_call body2;
     if negb (truthy key) then throw "User wallet not found. Please contact administrator." else
     address ← connectWallet e key;
     w ← get_world;
     hasVotedOnBlockchain ← await_call (hasVoterVoted (provider_ok w) (env_voters_voted e));
     emit (EvHasVoterVoted hasVotedOnBlockchain);;
     if (hasVotedOnBlockchain : bool)
     then throw "You have already voted in this election on the blockchain" else
     isRegistered ← await_call (isVoterRegistered (provider_ok w) (env_voters_registered e));
     emit (EvIsVoterRegistered isRegistered);;
     (if negb isRegistered then
        registrationResult ← registerVoter e contractAddress;
        emit (EvRegisterVoter (b_success registrationResult));;
        if negb (b_success registrationResult)
        then throw ("Voter registration failed: " +s+ show_opt (b_error registrationResult))
        else mret tt
      else mret tt);;
     voteResult ← castVote e (candidateId request);
     if negb (b_success voteResult)
     then throw ("Vote casting failed: " +s+ show_opt (b_error voteResult)) else
     mret (mkResponse true None (b_transactionHash voteResult) (b_blockNumber voteResult)
             None (Some "Real blockchain submission successful") None None))
    (fun m => mret (failure_response m)).

(** [private submitToBackend(request, transactionHash)]: the simulated
    backend; [isSuccess = Math.random() > 0.02]. *)
Definition submitToBackend (e : attempt_env) (request : VoteSubmissionRequest)
    (transactionHash_ : string) : M VoteSubmissionResponse :=
  emit EvSubmitToBackend;;
  let confirmationId_ :=
    "confirm_" +s+ to_radix_string 10 (env_now_backend e) +s+ "_" +s+ candidateId request in
  let isSuccess := negb (Qle_bool (env_backend_random e) (Qmake 2 100)) in
  if isSuccess
  then mret (mkResponse true None None None (Some confirmationId_)
               (Some "Backend submission successful") None None)
  else mret (failure_response "Backend service unavailable").

(** [private checkExistingVote(electionId, voterId)]: a mock. *)
Definition checkExistingVote (electionId_ voterId_ : string) : M bool :=
  emit EvCheckExistingVote;;
  mret false.

(** [private validateSubmission(request)]; [{ valid, message? }] is a
    pair. [verificationCode.length] counts characters; the codes are
    ASCII. *)
Definition validateSubmission (e : attempt_env) (request : VoteSubmissionRequest)
    : M (bool * option string) :=
  if negb (truthy (electionId request)) || negb (truthy (candidateId request))
     || negb (truthy (voterId request))
  then mret (false, Some "Missing required fields") else
  if negb (truthy (verificationCode request))
     || negb (String.length (verificationCode request) =? 6)%nat
  then mret (false, Some "Invalid verification code") else
  if negb (truthy (biometricHash request)) || negb (truthy (deviceId request))
  then mret (false, Some "Missing security credentials") else
  let now := env_now_validate e in
  let maxAge := 5 * 60 * 1000 in
  if now - timestamp request >? maxAge
  then mret (false, Some "Submission expired") else
  hasVoted ← checkExistingVote (electionId request) (voterId request);
  if (hasVoted : bool)
  then mret (false, Some "User has already voted in this election") else
  ledgerCheck ←
    (if truthy (voterAddress request) && truthy (electionId request) then
       @catch_err (option (bool * option string))
         ('(ok, _, body) ← await_fetch (env_validate_election e);
          if (ok : bool) then
            contractAddress ← await_call body;
            if truthy contractAddress then
              w ← get_world;
              hasVotedOnBlockchain ←
                await_call (hasVoterVoted (provider_ok w) (env_validate_voters e));
              emit (EvValidateHasVoterVoted hasVotedOnBlockchain);;
              if (hasVotedOnBlockchain : bool)
              then mret (Some (false,
                     Some "You have already voted in this election on the blockchain"))
              else mret None
            else mret None
          else mret None)
         (fun _ => mret None)
     else mret None);
  match ledgerCheck with
  | Some invalid => mret invalid
  | None => mret (true, None)
  end.

(** [private updateStatus(voteId, status, updates?)] *)
Definition updateStatus (voteId_ : string) (st : status_kind) (u : StatusUpdates) : M unit :=
  fun w =>
    match statusCache w !! voteId_ with
    | Some currentStatus =>
        (Ok tt, with_cache (<[voteId_ := apply_updates currentStatus st u]> (statusCache w)) w)
    | None => (Ok tt, w)
    end.

(** The [try] block of [async submitVote(request)]. *)
Definition submitVote_body (e : attempt_env) (request : VoteSubmissionRequest)
    (submissionId : string) : M VoteSubmissionResponse :=
  modify_world (fun w => with_queue (<[submissionId := request]> (submissionQueue w)) w);;
  modify_world (fun w => with_cache (<[submissionId :=
     mkStatus submissionId Pending None None None None (env_now_submit e) None]>
     (statusCache w)) w);;
  validation ← validateSubmission e request;
  if negb (fst validation)
  then throw (or_str (default "" (snd validation)) "Invalid vote submission") else
  updateStatus submissionId Processing no_updates;;
  blockchainResult ← submitToBlockchain e request;
  if negb (success blockchainResult)
  then throw (or_str (default "" (r_error blockchainResult)) "Blockchain submission failed") else
  backendResult ←
    submitToBackend e request (default "" (r_transactionHash blockchainResult));
  if negb (success backendResult)
  then throw (or_str (default "" (r_error backendResult)) "Backend submission failed") else
  updateStatus submissionId Confirmed
    (mkUpdates (r_transactionHash blockchainResult) (r_blockNumber blockchainResult)
       (Some 1) None (Some (env_now_confirm e)));;
  modify_world (fun w => with_queue (delete submissionId (submissionQueue w)) w);;
  modify_world (fun w => with_retries (delete submissionId (retryAttempts w)) w);;
  mret (mkResponse true (Some submissionId) (r_transactionHash blockchainResult)
          (r_blockNumber blockchainResult) (confirmationId backendResult)
          (Some "Vote submitted successfully") None None).

(** The [catch (error)] block of [async submitVote(request)]. *)
Definition submitVote_onError (submissionId errorMessage : string) : M VoteSubmissionResponse :=
  updateStatus submissionId Failed (mkUpdates None None None (Some errorMessage) None);;
  w ← get_world;
  let retryCount := default 0 (retryAttempts w !! submissionId) in
  if retryCount <? maxRetries then
    modify_world (fun w =>
      with_retries (<[submissionId := retryCount + 1]> (retryAttempts w)) w);;
    modify_world (fun w =>
      with_timers (timers w ++ [(retryDelay * (retryCount + 1), submissionId)]) w);;
    mret (mkResponse false None None None None None (Some errorMessage)
            (Some (retryDelay * (retryCount + 1))))
  else
    modify_world (fun w => with_queue (delete submissionId (submissionQueue w)) w);;
    modify_world (fun w => with_retries (delete submissionId (retryAttempts w)) w);;
    mret (failure_response errorMessage).

(** [async submitVote(request)] *)
Definition submitVote (e : attempt_env) (request : VoteSubmissionRequest)
    : M VoteSubmissionResponse :=
  let submissionId := generateSubmissionId request (env_id_random e) in
  catch_err (submitVote_body e request submissionId) (submitVote_onError submissionId).

(** [private async retrySubmission(submissionId)]; [e] answers the calls
    of the new [submitVote] run. *)
Definition retrySubmission (e : attempt_env) (submissionId : string) : M unit :=
  w ← get_world;
  match submissionQueue w !! submissionId with
  | None => mret tt
  | Some request => _ ← submitVote e request; mret tt
  end.

(** A pending timer callback fires: the [k]-th pending timer (in the
    order they were scheduled) is removed from the pending timers and
    runs [retrySubmission]. Any pending timer may fire next; when no
    timer has index [k], nothing happens. *)
Definition fire_timer (e : attempt_env) (k : nat) : M unit :=
  w ← get_world;
  match timers w !! k with
  | None => mret tt
  | Some (_, submissionId) =>
      modify_world (fun w => with_timers (delete k (timers w)) w);;
      retrySubmission e submissionId
  end.

(** [cancelSubmission(voteId)] *)
Definition cancelSubmission (voteId_ : string) : M bool :=
  w ← get_world;
  if bool_decide (is_Some (submissionQueue w !! voteId_)) then
    modify_world (fun w => with_queue (delete voteId_ (submissionQueue w)) w);;
    modify_world (fun w => with_retries (delete voteId_ (retryAttempts w)) w);;
    updateStatus voteId_ Rejected no_updates;;
    mret true
  else mret false.

(** Running a computation from a world. *)
Definition run {A} (m : M A) (w : world) : outcome A * world := m w.

(** [getSubmissionStatus(voteId)]: [statusCache.get(voteId) || null];
    a status object is truthy, so [|| null] only turns [undefined] into
    [null]. *)
Definition getSubmissionStatus (voteId_ : string) (w : world) : option VoteSubmissionStatus :=
  statusCache w !! voteId_.

(** [status === 'pending' || status === 'processing'] *)
Definition is_pending_status (st : VoteSubmissionStatus) : bool :=
  match status st with Pending | Processing => true | _ => false end.

(** [getPendingSubmissions()]: [Array.from(statusCache.values())] filtered.
    The list follows [gmap]'s key order, not the [Map]'s insertion order. *)
Definition getPendingSubmissions (w : world) : list VoteSubmissionStatus :=
  List.filter is_pending_status (map snd (map_to_list (statusCache w))).

(** [clearOldSubmissions(maxAge = 24 * 60 * 60 * 1000)]; [now] is the
    [Date.now()] it reads. The ids to delete are collected from the
    status cache, then deleted from the three maps. *)
Definition default_maxAge : Z := 24 * 60 * 60 * 1000.

Definition clear_id (w : world) (voteId_ : string) : world :=
  with_retries (delete voteId_ (retryAttempts w))
    (with_queue (delete voteId_ (submissionQueue w))
       (with_cache (delete voteId_ (statusCache w)) w)).

Definition clearOldSubmissions (now maxAge : Z) : M unit :=
  modify_world (fun w =>
    let toDelete :=
      map fst (List.filter (fun '(_, st) => now - submittedAt st >? maxAge)
                 (map_to_list (statusCache w))) in
    fold_left clear_id toDelete w).

(** [getStatistics()] *)
Record Statistics := mkStats {
  total : Z; pending : Z; processing : Z; confirmed : Z; failed : Z; rejected : Z
}.

(** [stats.total++; stats[status.status]++;] *)
Definition count_status (s : Statistics) (k : status_kind) : Statistics :=
  let s := mkStats (total s + 1) (pending s) (processing s) (confirmed s) (failed s) (rejected s) in
  match k with
  | Pending => mkStats (total s) (pending s + 1) (processing s) (confirmed s) (failed s) (rejected s)
  | Processing => mkStats (total s) (pending s) (processing s + 1) (confirmed s) (failed s) (rejected s)
  | Confirmed => mkStats (total s) (pending s) (processing s) (confirmed s + 1) (failed s) (rejected s)
  | Failed => mkStats (total s) (pending s) (processing s) (confirmed s) (failed s + 1) (rejected s)
  | Rejected => mkStats (total s) (pending s) (processing s) (confirmed s) (failed s) (rejected s + 1)
  end.

Definition getStatistics (w : world) : Statistics :=
  map_fold (fun _ st s => count_status s (status st)) (mkStats 0 0 0 0 0 0) (statusCache w).

(** ** The caller: [useVoting]'s [castVote] (src/unnamed/part_010)

    The request it passes to [submitVote]: [electionId], [candidateId],
    [voterId: user.id], [voterAddress: user.wallet_address || ''],
    [token] and [timestamp: Date.now()]; [verificationCode],
    [biometricHash] and [deviceId] are not given ([undefined], the empty
    string here). *)
Definition useVoting_request (electionId_ candidateId_ userId walletAddress token_ : string)
    (now : Z) : VoteSubmissionRequest :=
  mkRequest electionId_ candidateId_ userId "" "" "" now (or_str walletAddress "") token_.

(** ** [RealBlockchainService.getTransactionDetails(transactionHash)] *)

(** The fields of the [ethers] transaction and receipt that are read. *)
Record TxInfo := mkTxInfo {
  tx_hash : string; tx_from : string; tx_to : option string; tx_value : Z;
  tx_gasLimit : Z; tx_gasPrice : option Z; tx_nonce : Z
}.

Record TxReceipt := mkReceipt {
  rc_blockNumber : Z; rc_gasUsed : Z; rc_status : option Z
}.

Record TransactionDetails := mkTxDetails {
  d_hash : string; d_from : string; d_to : option string; d_value : string;
  d_gasLimit : string; d_gasPrice : option string; d_nonce : Z;
  d_blockNumber : Z; d_gasUsed : string; d_status : string
}.

Record TxDetailsResult := mkTxDetailsResult {
  t_success : bool;
  t_transaction : option TransactionDetails;
  t_error : option string
}.

Definition tx_failure (msg : string) : TxDetailsResult := mkTxDetailsResult false None (Some msg).

(** [provider_ok] is [this.provider] being set; [txr] and [rcr] are the
    outcomes of [provider.getTransaction] and
    [provider.getTransactionReceipt] ([None] is [null]). *)
Definition getTransactionDetails (provider_ok : bool) (txr : call_result (option TxInfo))
    (rcr : call_result (option TxReceipt)) : TxDetailsResult :=
  if negb provider_ok then tx_failure "Blockchain provider not initialized" else
  match txr with
  | CThrow m => tx_failure m
  | COk otx =>
      match rcr with
      | CThrow m => tx_failure m
      | COk orc =>
          match otx, orc with
          | Some tx, Some rc =>
              mkTxDetailsResult true
                (Some (mkTxDetails (tx_hash tx) (tx_from tx) (tx_to tx)
                         (to_radix_string 10 (tx_value tx)) (to_radix_string 10 (tx_gasLimit tx))
                         (option_map (to_radix_string 10) (tx_gasPrice tx)) (tx_nonce tx)
                         (rc_blockNumber rc) (to_radix_string 10 (rc_gasUsed rc))
                         (if bool_decide (rc_status rc = Some 1) then "success" else "failed")))
                None
          | _, _ => tx_failure "Transaction not found"
          end
      end
  end.

(** The [status] shown for a vote of the history (src/unnamed/part_011):
    [txDetails.success ? (transaction.status === 'success' ? 'Verified' : 'Failed')
     : 'Pending Verification']. *)
Definition history_status (d : TxDetailsResult) : string :=
  if t_success d then
    match t_transaction d with
    | Some t => if String.eqb (d_status t) "success" then "Verified" else "Failed"
    | None => "Pending Verification"  (* a TypeError, caught: the fallback entry *)
    end
  else "Pending Verification".

(** ** Concrete inputs *)

Definition sample_request : VoteSubmissionRequest :=
  mkRequest "election-1" "1" "user-1" "123456" "bio-hash" "device-1"
            1700000000000 "" "token".

Definition empty_world : world := mkWorld ∅ ∅ ∅ [] true None [].

(** A healthy ledger and backend, a fresh request, an unregistered voter. *)
Definition healthy_env (rnd : string) (t0 : Z) : attempt_env :=
  mkEnv rnd t0 (t0 + 1000)
    (HttpResp true "OK" (COk "0xC0FFEE")) (COk false)
    (HttpResp true "OK" (COk "0xC0FFEE"))
    (HttpResp true "OK" (COk "0xKEY"))
    (COk "0xA11CE") (COk tt)
    (COk false) (COk false)
    (COk ("0xREG", 10)) (COk ("0xVOTE", 11))
    (t0 + 3000) (Qmake 1 2) (t0 + 4000).

Definition already_voted_msg : string :=
  "You have already voted in this election on the blockchain".

(** A healthy run, except that the ledger reports the voter as having voted. *)
Definition voted_env (rnd : string) (t0 : Z) : attempt_env :=
  let e := healthy_env rnd t0 in
  mkEnv (env_id_random e) (env_now_submit e) (env_now_validate e)
    (env_validate_election e) (env_validate_voters e) (env_election e) (env_profile e)
    (env_wallet_ctor e) (env_balance e) (COk true) (env_voters_registered e)
    (env_register_tx e) (env_vote_tx e) (env_now_backend e) (env_backend_random e)
    (env_now_confirm e).

Definition sample_time : Z := timestamp sample_request.

(** A healthy run whose backend call draws [Math.random() = 0.01]. *)
Definition backend_down_env (rnd : string) (t0 : Z) : attempt_env :=
  let e := healthy_env rnd t0 in
  mkEnv (env_id_random e) (env_now_submit e) (env_now_validate e)
    (env_validate_election e) (env_validate_voters e) (env_election e) (env_profile e)
    (env_wallet_ctor e) (env_balance e) (env_voters_voted e) (env_voters_registered e)
    (env_register_tx e) (env_vote_tx e) (env_now_backend e) (Qmake 1 100)
    (env_now_confirm e).

(** A healthy run that validates [sample_request] more than five
    minutes after its timestamp. *)
Definition late_env (rnd : string) : attempt_env := healthy_env rnd (sample_time + 400000).

(** A submission of [sample_request] that has reached [processing]. *)
Definition inflight_id : string := generateSubmissionId sample_request "k3j5x9".

Definition inflight_world : world :=
  mkWorld {[ inflight_id := sample_request ]}
    {[ inflight_id := mkStatus inflight_id Processing None None None None sample_time None ]}
    ∅ [] true None [].

(** A healthy run, except that [provider.getBalance] rejects inside
    [connectWallet], after the wallet has been constructed. *)
Definition balance_down_env (rnd : string) (t0 : Z) : attempt_env :=
  let e := healthy_env rnd t0 in
  mkEnv (env_id_random e) (env_now_submit e) (env_now_validate e)
    (env_validate_election e) (env_validate_voters e) (env_election e) (env_profile e)
    (env_wallet_ctor e) (CThrow "could not detect network") (env_voters_voted e)
    (env_voters_registered e) (env_register_tx e) (env_vote_tx e) (env_now_backend e)
    (env_backend_random e) (env_now_confirm e).

(** Operations of the service driven from outside: a [submitVote] call,
    the firing of the [k]-th pending retry timer, a [cancelSubmission]. *)
Inductive op : Type :=
| OpSubmit (e : attempt_env) (request : VoteSubmissionRequest)
| OpFireTimer (e : attempt_env) (k : nat)
| OpCancel (voteId_ : string).

Definition run_op (o : op) : M unit :=
  match o with
  | OpSubmit e request => _ ← submitVote e request; mret tt
  | OpFireTimer e k => fire_timer e k
  | OpCancel id => _ ← cancelSubmission id; mret tt
  end.

Fixpoint exec (ops : list op) (w : world) : world :=
  match ops with
  | [] => w
  | o :: rest => exec rest (snd (run_op o w))
  end.

(** An expired request, submitted once, and then the retry timer firing
    five times; each [submitVote] run draws its own random id part. *)
Definition retry_chain : list op :=
  OpSubmit (late_env "r0aaaa") sample_request ::
  map (fun rnd => OpFireTimer (late_env rnd) 0) ["r1bbbb"; "r2cccc"; "r3dddd"; "r4eeee"; "r5ffff"].

(** ** Interleaved runs of [submitToBlockchain]

    The service and [realBlockchainService] are singletons: two
    submissions in flight share [this.wallet]. Each [await] suspends the
    running call, and the calls of other submissions may run before it
    resumes. A run is a [thread]: finished with an outcome, or suspended
    at an [await] with the code that runs when it resumes. A run emits
    its events tagged with its own number. *)
Module Interleaved.

Inductive conc_event : Type :=
| CSubmitToBlockchain
| CConnectWallet (address : string)         (** [this.wallet = new ethers.Wallet(key)] *)
| CHasVoterVoted (voter : string) (voted : bool)
| CIsVoterRegistered (voter : string) (registered : bool)
| CRegisterVoterTx (voter : string)         (** [contract.registerVoter(this.wallet.address)] sent *)
| CRegisterVoter (ok : bool)                (** [registerVoter] returned *)
| CCastVote                                 (** [castVote] called *)
| CVoteTx (sender : string).                (** [contract.vote(...)] sent, signed by [this.wallet] *)

(** What the runs share: [this.provider !== null], [this.wallet] (its
    address) and the trace of external calls. *)
Record cworld := mkCWorld {
  c_provider_ok : bool;
  c_wallet : option string;
  c_trace : list (nat * conc_event)
}.

Inductive thread (A : Type) : Type :=
| Done (o : outcome A)
| Suspended (k : cworld -> thread A * cworld).
Arguments Done {A} o.
Arguments Suspended {A} k.

(** The code of a run up to its next [await]. *)
Definition CM (A : Type) : Type := cworld -> thread A * cworld.

Fixpoint thread_bind {A B} (t : thread A) (f : A -> CM B) : CM B := fun w =>
  match t with
  | Done (Ok a) => f a w
  | Done (Err m) => (Done (Err m), w)
  | Suspended k => (Suspended (fun w1 => let '(t1, w2) := k w1 in thread_bind t1 f w2), w)
  end.

Global Instance CM_ret : MRet CM := fun A a w => (Done (Ok a), w).
Global Instance CM_bind : MBind CM := fun A B f m w =>
  let '(t, w1) := m w in thread_bind t f w1.

Fixpoint thread_catch {A} (t : thread A) (h : string -> CM A) : CM A := fun w =>
  match t with
  | Done (Ok a) => (Done (Ok a), w)
  | Done (Err m) => h m w
  | Suspended k => (Suspended (fun w1 => let '(t1, w2) := k w1 in thread_catch t1 h w2), w)
  end.

(** [try { m } catch (error) { h(error.message) }] *)
Definition catch_err {A} (m : CM A) (h : string -> CM A) : CM A := fun w =>
  let '(t, w1) := m w in thread_catch t h w1.

Definition throw {A} (msg : string) : CM A := fun w => (Done (Err msg), w).

Definition emit (tid : nat) (ev : conc_event) : CM unit := fun w =>
  (Done (Ok tt), mkCWorld (c_provider_ok w) (c_wallet w) (c_trace w ++ [(tid, ev)])).

Definition get_world : CM cworld := fun w => (Done (Ok w), w).

Definition set_wallet (address : string) : CM unit := fun w =>
  (Done (Ok tt), mkCWorld (c_provider_ok w) (Some address) (c_trace w)).

(** [await] of a call that resolves or rejects: the run is suspended. *)
Definition await_call {A} (c : call_result A) : CM A := fun w =>
  (Suspended (fun w1 => (Done (match c with COk a => Ok a | CThrow m => Err m end), w1)), w).

Definition await_fetch (r : http_result) : CM (bool * string * call_result string) :=
  await_call (match r with
              | HttpThrow m => CThrow m
              | HttpResp ok st body => COk (ok, st, body)
              end).

(** [await f(...)] of an async method: its body runs (with its own
    [await]s), and the caller resumes once more after it settles. *)
Definition await_async {A} (m : CM A) : CM A :=
  catch_err (x ← m; _ ← await_call (COk tt); mret x)
            (fun msg => _ ← await_call (COk tt); throw msg).

(** [connectWallet(privateKey)]: [new ethers.Wallet] replaces
    [this.wallet] before the first [await]. *)
Definition connectWallet (tid : nat) (e : attempt_env) (privateKey : string) : CM string :=
  catch_err
    (w ← get_world;
     if negb (c_provider_ok w) then throw "Blockchain provider not initialized" else
     match env_wallet_ctor e with
     | CThrow m => throw m
     | COk addr =>
         set_wallet addr;;
         emit tid (CConnectWallet addr);;
         address ← await_call (COk addr);                 (** [this.wallet.getAddress()] *)
         _ ← await_call (env_balance e);
         mret address
     end)
    (fun m => throw ("Failed to connect wallet: " +s+ m)).

(** [hasVoterVoted(contractAddress, voterAddress)] *)
Definition hasVoterVoted (e : attempt_env) (contractAddress voterAddress : string) : CM bool :=
  catch_err
    (w ← get_world;
     if negb (c_provider_ok w) then throw "Blockchain provider not initialized" else
     await_call (env_voters_voted e))
    (fun _ => mret false).

(** [isVoterRegistered(contractAddress, voterAddress)] *)
Definition isVoterRegistered (e : attempt_env) (contractAddress voterAddress : string)
    : CM bool :=
  catch_err
    (w ← get_world;
     if negb (c_provider_ok w) then throw "Blockchain provider not initialized" else
     await_call (env_voters_registered e))
    (fun _ => mret false).

(** [registerVoter(contractAddress)]: registers [this.wallet.address];
    [env_register_tx] is the outcome of sending and mining it. *)
Definition registerVoter (tid : nat) (e : attempt_env) (contractAddress : string)
    : CM BlockchainVoteResponse :=
  catch_err
    (w ← get_world;
     match c_wallet w with
     | None => throw "Wallet not connected"
     | Some signer =>
         emit tid (CRegisterVoterTx signer);;
         _ ← await_call (COk tt);                         (** [contract.registerVoter(...)] *)
         '(h, b) ← await_call (env_register_tx e);        (** [tx.wait()] *)
         mret (mkBResponse true (Some h) (Some b) None)
     end)
    (fun m => mret (mkBResponse false None None (Some m))).

(** [castVote(request)]: the contract object is built with [this.wallet]
    as it is when the call starts. *)
Definition castVote (tid : nat) (e : attempt_env) (candidateId_ : string)
    : CM BlockchainVoteResponse :=
  emit tid CCastVote;;
  catch_err
    (w ← get_world;
     match c_wallet w with
     | None => throw "Wallet not connected"
     | Some signer =>
         match parseInt candidateId_ with
         | None => throw "Invalid candidate ID"
         | Some _ =>
             emit tid (CVoteTx signer);;
             _ ← await_call (COk tt);                     (** [contract.vote(...)] *)
             '(h, b) ← await_call (env_vote_tx e);        (** [tx.wait()] *)
             mret (mkBResponse true (Some h) (Some b) None)
         end
     end)
    (fun m => mret (mkBResponse false None None (Some m))).

(** [private submitToBlockchain(request)], run number [tid]. *)
Definition submitToBlockchain (tid : nat) (e : attempt_env) (request : VoteSubmissionRequest)
    : CM VoteSubmissionResponse :=
  emit tid CSubmitToBlockchain;;
  @catch_err VoteSubmissionResponse
    (_ ← await_call (COk tt);                             (** [import(...)] *)
     '(ok, st, body) ← await_fetch (env_election e);
     if negb ok then throw ("Failed to get election details: " +s+ st) else
     contractAddress ← await_call body;
     if negb (truthy contractAddress) then throw "Election contract address not found" else
     '(ok2, st2, body2) ← await_fetch (env_profile e);
     if negb ok2 then throw ("Failed to get user profile: " +s+ st2) else
     key ← await_call body2;
     if negb (truthy key) then throw "User wallet not found. Please contact administrator." else
     address ← await_async (connectWallet tid e key);
     hasVotedOnBlockchain ← await_async (hasVoterVoted e contractAddress address);
     emit tid (CHasVoterVoted address hasVotedOnBlockchain);;
     if (hasVotedOnBlockchain : bool)
     then throw "You have already voted in this election on the blockchain" else
     isRegistered ← await_async (isVoterRegistered e contractAddress address);
     emit tid (CIsVoterRegistered address isRegistered);;
     (if negb isRegistered then
        registrationResult ← await_async (registerVoter tid e contractAddress);
        emit tid (CRegisterVoter (b_success registrationResult));;
        if negb (b_success registrationResult)
        then throw ("Voter registration failed: " +s+ show_opt (b_error registrationResult))
        else mret tt
      else mret tt);;
     voteResult ← await_async (castVote tid e (candidateId request));
     if negb (b_success voteResult)
     then throw ("Vote casting failed: " +s+ show_opt (b_error voteResult)) else
     mret (mkResponse true None (b_transactionHash voteResult) (b_blockNumber voteResult)
             None (Some "Real blockchain submission successful") None None))
    (fun m => mret (failure_response m)).

(** The runs in flight; run [i] is the [i]-th. *)
Abbreviation pool := (list (thread VoteSubmissionResponse)).

(** Resuming run [i] (or starting it) until its next [await]. *)
Definition step (i : nat) (p : pool) (w : cworld) : pool * cworld :=
  match p !! i with
  | Some (Suspended k) => let '(t, w1) := k w in (<[i := t]> p, w1)
  | _ => (p, w)
  end.

Fixpoint run_schedule (sched : list nat) (p : pool) (w : cworld) : pool * cworld :=
  match sched with
  | [] => (p, w)
  | i :: rest => let '(p1, w1) := step i p w in run_schedule rest p1 w1
  end.

(** One [submitToBlockchain] call per submission, none started yet. *)
Definition start (jobs : list (attempt_env * VoteSubmissionRequest)) : pool :=
  imap (fun i job => Suspended (submitToBlockchain i (fst job) (snd job))) jobs.

(** The events of run [tid], in order. *)
Definition run_events (tid : nat) (tr : list (nat * conc_event)) : list conc_event :=
  map snd (List.filter (fun p => Nat.eqb (fst p) tid) tr).

(** Scan of the events of a run: whether [isVoterRegistered] returned
    [true] or [registerVoter] succeeded since the last entry into
    [submitToBlockchain]; [None] once a [castVote] call came without. *)
Definition reg_step (seen : bool) (ev : conc_event) : option bool :=
  match ev with
  | CSubmitToBlockchain => Some false
  | CIsVoterRegistered _ b => Some (seen || b)
  | CRegisterVoter b => Some (seen || b)
  | CCastVote => if seen then Some seen else None
  | _ => Some seen
  end.

Fixpoint reg_scan (seen : bool) (evs : list conc_event) : option bool :=
  match evs with
  | [] => Some seen
  | ev :: rest => match reg_step seen ev with Some s => reg_scan s rest | None => None end
  end.

Definition registration_event (ev : conc_event) : Prop :=
  (exists a, ev = CIsVoterRegistered a true) \/ ev = CRegisterVoter true.

(** Every [castVote] call of the events comes after a registration
    event with no entry into [submitToBlockchain] in between. *)
Definition cast_after_registration (evs : list conc_event) : Prop :=
  forall i, evs !! i = Some CCastVote ->
  exists j ev, (j < i)%nat /\ evs !! j = Some ev /\ registration_event ev /\
    forall k, (j < k < i)%nat -> evs !! k <> Some CSubmitToBlockchain.

End Interleaved.

(** Two submissions in flight: one whose key opens the wallet
    [0xA11CE], registered on the ledger, and one whose key opens
    [0xB0B], not registered. The ledger reverts a vote from an
    unregistered address. *)
Definition alice_env : attempt_env :=
  let e := healthy_env "k3j5x9" sample_time in
  mkEnv (env_id_random e) (env_now_submit e) (env_now_validate e)
    (env_validate_election e) (env_validate_voters e) (env_election e) (env_profile e)
    (COk "0xA11CE") (env_balance e) (COk false) (COk true)
    (env_register_tx e) (CThrow "execution reverted: voter not registered")
    (env_now_backend e) (env_backend_random e) (env_now_confirm e).

Definition bob_request : VoteSubmissionRequest :=
  mkRequest "election-1" "2" "user-2" "654321" "bio-hash-2" "device-2"
            1700000000000 "" "token-2".

Definition bob_env : attempt_env :=
  let e := healthy_env "m8q2t1" sample_time in
  mkEnv (env_id_random e) (env_now_submit e) (env_now_validate e)
    (env_validate_election e) (env_validate_voters e) (env_election e)
    (HttpResp true "OK" (COk "0xKEY2"))
    (COk "0xB0B") (env_balance e) (COk false) (COk false)
    (COk ("0xREG2", 12)) (COk ("0xVOTE2", 13))
    (env_now_backend e) (env_backend_random e) (env_now_confirm e).

Definition race_jobs : list (attempt_env * VoteSubmissionRequest) :=
  [(alice_env, sample_request); (bob_env, bob_request)].

(** Run 0 until it awaits [isVoterRegistered], run 1 until it awaits
    [getAddress] in its [connectWallet], then run 0 to its end, then
    run 1 to its end. *)
Definition race_schedule : list nat :=
  repeat 0%nat 12 ++ repeat 1%nat 6 ++ repeat 0%nat 10 ++ repeat 1%nat 20.

(** Case analysis along the paths of an unfolded computation: destruct
    the innermost scrutinee until every path is straight-line code. *)
Ltac split_paths :=
  repeat (cbn -[generateSubmissionId lookup insert delete Z.gtb Z.ltb];
    match goal with
    | |- context [match ?x with _ => _ end] =>
        lazymatch x with
        | context [match _ with _ => _ end] => fail
        | _ => destruct x eqn:?
        end
    end);
  cbn -[generateSubmissionId lookup insert delete Z.gtb Z.ltb].

(** ** Claims *)

(** C10: [hasVoterVoted] never rejects: it resolves for every provider
    state and every outcome of the [contract.voters] call; with no
    provider, or when the call throws, it resolves with [false], the same
    answer as a ledger reporting that the voter has not voted. *)
Theorem hasVoterVoted_never_rejects :
  (forall provider voters, exists b, hasVoterVoted provider voters = COk b) /\
  (forall voters, hasVoterVoted false voters = COk false) /\
  (forall msg, hasVoterVoted true (CThrow msg) = COk false) /\
  (forall msg, hasVoterVoted true (CThrow msg) = hasVoterVoted true (COk false)).
Proof.
  split; [|split; [|split]].
  - intros [] [b|msg]; cbn; eauto.
  - intros voters. reflexivity.
  - intros msg. reflexivity.
  - intros msg. reflexivity.
Qed.

Module InterleavedProofs.
Import Interleaved.

Lemma thread_ind' {A} (P : thread A -> Prop) :
  (forall o, P (Done o)) ->
  (forall k, (forall w, P (fst (k w))) -> P (Suspended k)) ->
  forall t, P t.
Proof.
  intros HD HS. fix IH 1. intros [o | k].
  - apply HD.
  - apply HS. intros w. destruct (k w) as [t1 w1]. apply IH.
Qed.

Lemma run_scan_app s evs1 evs2 :
  reg_scan s (evs1 ++ evs2) =
  match reg_scan s evs1 with Some s1 => reg_scan s1 evs2 | None => None end.
Proof.
  revert s. induction evs1 as [|ev evs1 IH]; intros s; cbn; [reflexivity|].
  destruct (reg_step s ev); [apply IH | reflexivity].
Qed.

(** [tgood tid Q s t]: whatever the other runs do while [t] is
    suspended, its remaining steps append only events of run [tid] to
    the trace, the scan of these events from [s] never fails, and the
    outcome [o] with the final scan state [s'] satisfies [Q o s']. *)
Fixpoint tgood {A} (tid : nat) (Q : outcome A -> bool -> Prop) (s : bool) (t : thread A) : Prop :=
  match t with
  | Done o => Q o s
  | Suspended k => forall w,
      let '(t1, w1) := k w in
      exists evs s1, c_trace w1 = c_trace w ++ map (pair tid) evs /\
        reg_scan s evs = Some s1 /\ tgood tid Q s1 t1
  end.

Definition mgood {A} (tid : nat) (Q : outcome A -> bool -> Prop) (s : bool) (m : CM A) : Prop :=
  forall w, let '(t, w1) := m w in
    exists evs s1, c_trace w1 = c_trace w ++ map (pair tid) evs /\
      reg_scan s evs = Some s1 /\ tgood tid Q s1 t.

Arguments tgood : simpl never.
Arguments mgood : simpl never.

Definition wp_bind {A B} (tid : nat) (f : A -> CM B) (Q : outcome B -> bool -> Prop)
    : outcome A -> bool -> Prop := fun o s =>
  match o with Ok a => mgood tid Q s (f a) | Err m => Q (Err m) s end.

Definition wp_catch {A} (tid : nat) (h : string -> CM A) (Q : outcome A -> bool -> Prop)
    : outcome A -> bool -> Prop := fun o s =>
  match o with Ok a => Q (Ok a) s | Err m => mgood tid Q s (h m) end.

Lemma tgood_bind {A B} tid (f : A -> CM B) Q (t : thread A) :
  forall s, tgood tid (wp_bind tid f Q) s t -> mgood tid Q s (thread_bind t f).
Proof.
  induction t as [o | k IH] using thread_ind'; intros s H w.
  - destruct o as [a | m]; cbn.
    + apply H.
    + exists [], s. rewrite app_nil_r. auto.
  - cbn. exists [], s. rewrite app_nil_r. split; [reflexivity|]. split; [reflexivity|].
    cbn. intros w1. specialize (H w1). specialize (IH w1).
    destruct (k w1) as [t1 w2]. cbn in IH.
    destruct H as (evs1 & s1 & Htr & Hsc & Ht).
    specialize (IH s1 Ht w2). destruct (thread_bind t1 f w2) as [t3 w3] eqn:E.
    destruct IH as (evs2 & s2 & Htr2 & Hsc2 & Ht3).
    exists (evs1 ++ evs2), s2. split; [|split; [|exact Ht3]].
    + rewrite Htr2, Htr, map_app, app_assoc. reflexivity.
    + rewrite run_scan_app, Hsc. exact Hsc2.
Qed.

Lemma mgood_bind {A B} tid (f : A -> CM B) Q s (m : CM A) :
  mgood tid (wp_bind tid f Q) s m -> mgood tid Q s (mbind f m).
Proof.
  intros H w. specialize (H w). unfold mbind, CM_bind.
  destruct (m w) as [t w1]. destruct H as (evs1 & s1 & Htr & Hsc & Ht).
  pose proof (tgood_bind tid f Q t s1 Ht w1) as H2.
  destruct (thread_bind t f w1) as [t3 w3].
  destruct H2 as (evs2 & s2 & Htr2 & Hsc2 & Ht3).
  exists (evs1 ++ evs2), s2. split; [|split; [|exact Ht3]].
  - rewrite Htr2, Htr, map_app, app_assoc. reflexivity.
  - rewrite run_scan_app, Hsc. exact Hsc2.
Qed.

Lemma tgood_catch {A} tid (h : string -> CM A) Q (t : thread A) :
  forall s, tgood tid (wp_catch tid h Q) s t -> mgood tid Q s (thread_catch t h).
Proof.
  induction t as [o | k IH] using thread_ind'; intros s H w.
  - destruct o as [a | m]; cbn.
    + exists [], s. rewrite app_nil_r. auto.
    + apply H.
  - cbn. exists [], s. rewrite app_nil_r. split; [reflexivity|]. split; [reflexivity|].
    cbn. intros w1. specialize (H w1). specialize (IH w1).
    destruct (k w1) as [t1 w2]. cbn in IH.
    destruct H as (evs1 & s1 & Htr & Hsc & Ht).
    specialize (IH s1 Ht w2). destruct (thread_catch t1 h w2) as [t3 w3] eqn:E.
    destruct IH as (evs2 & s2 & Htr2 & Hsc2 & Ht3).
    exists (evs1 ++ evs2), s2. split; [|split; [|exact Ht3]].
    + rewrite Htr2, Htr, map_app, app_assoc. reflexivity.
    + rewrite run_scan_app, Hsc. exact Hsc2.
Qed.

Lemma mgood_catch {A} tid (h : string -> CM A) Q s (m : CM A) :
  mgood tid (wp_catch tid h Q) s m -> mgood tid Q s (catch_err m h).
Proof.
  intros H w. specialize (H w). unfold catch_err.
  destruct (m w) as [t w1]. destruct H as (evs1 & s1 & Htr & Hsc & Ht).
  pose proof (tgood_catch tid h Q t s1 Ht w1) as H2.
  destruct (thread_catch t h w1) as [t3 w3].
  destruct H2 as (evs2 & s2 & Htr2 & Hsc2 & Ht3).
  exists (evs1 ++ evs2), s2. split; [|split; [|exact Ht3]].
  - rewrite Htr2, Htr, map_app, app_assoc. reflexivity.
  - rewrite run_scan_app, Hsc. exact Hsc2.
Qed.

Lemma mgood_ret {A} tid (Q : outcome A -> bool -> Prop) s (a : A) :
  Q (Ok a) s -> mgood tid Q s (mret a).
Proof. intros H w. exists [], s. rewrite app_nil_r. auto. Qed.

Lemma mgood_throw {A} tid (Q : outcome A -> bool -> Prop) s msg :
  Q (Err msg) s -> mgood tid Q s (throw msg).
Proof. intros H w. exists [], s. rewrite app_nil_r. auto. Qed.

Lemma mgood_get tid (Q : outcome cworld -> bool -> Prop) s :
  (forall w, Q (Ok w) s) -> mgood tid Q s get_world.
Proof. intros H w. exists [], s. rewrite app_nil_r. split; [reflexivity|]. split; [reflexivity|]. apply H. Qed.

Lemma mgood_set_wallet tid (Q : outcome unit -> bool -> Prop) s a :
  Q (Ok tt) s -> mgood tid Q s (set_wallet a).
Proof. intros H w. exists [], s. rewrite app_nil_r. auto. Qed.

Lemma mgood_emit tid (Q : outcome unit -> bool -> Prop) s ev :
  match reg_step s ev with Some s1 => Q (Ok tt) s1 | None => False end ->
  mgood tid Q s (emit tid ev).
Proof.
  intros H w. destruct (reg_step s ev) as [s1|] eqn:E; [|contradiction].
  exists [ev], s1. cbn. rewrite E. auto.
Qed.

Lemma mgood_await {A} tid (Q : outcome A -> bool -> Prop) s (c : call_result A) :
  match c with COk a => Q (Ok a) s | CThrow m => Q (Err m) s end -> mgood tid Q s (await_call c).
Proof.
  intros H w. assert (H' : Q (match c with COk a => Ok a | CThrow m => Err m end) s)
    by (destruct c; exact H). clear H. exists [], s. rewrite app_nil_r. split; [reflexivity|]. split; [reflexivity|].
  cbn. intros w1. exists [], s. rewrite app_nil_r. auto.
Qed.

Lemma mgood_fetch tid (Q : outcome (bool * string * call_result string) -> bool -> Prop) s r :
  match r with HttpThrow m => Q (Err m) s | HttpResp ok st body => Q (Ok (ok, st, body)) s end ->
  mgood tid Q s (await_fetch r).
Proof. intros H. apply mgood_await. destruct r; exact H. Qed.

Ltac wp_step :=
  lazymatch goal with
  | |- mgood _ _ _ (mbind _ _) => apply mgood_bind
  | |- mgood _ _ _ (catch_err _ _) => apply mgood_catch
  | |- mgood _ _ _ (mret _) => apply mgood_ret
  | |- mgood _ _ _ (throw _) => apply mgood_throw
  | |- mgood _ _ _ get_world => apply mgood_get; intros ?
  | |- mgood _ _ _ (set_wallet _) => apply mgood_set_wallet
  | |- mgood _ _ _ (emit _ _) => apply mgood_emit
  | |- mgood _ _ _ (await_fetch _) => apply mgood_fetch
  | |- mgood _ _ _ (await_call ?c) =>
      apply mgood_await
  | |- mgood _ _ _ (await_async _) => unfold await_async
  | |- mgood _ _ _ (connectWallet _ _ _) => unfold connectWallet
  | |- mgood _ _ _ (hasVoterVoted _ _ _) => unfold hasVoterVoted
  | |- mgood _ _ _ (isVoterRegistered _ _ _) => unfold isVoterRegistered
  | |- mgood _ _ _ (registerVoter _ _ _) => unfold registerVoter
  | |- mgood _ _ _ (castVote _ _ _) => unfold castVote
  | |- mgood _ _ _ (if negb ?b then _ else _) => destruct b
  | |- mgood _ _ _ (if ?b then _ else _) => destruct b
  | |- mgood _ _ _ (match ?x with _ => _ end) => destruct x
  | |- match ?c with COk _ => _ | CThrow _ => _ end => destruct c
  | |- match reg_step _ _ with _ => _ end => cbn [reg_step orb negb b_success]
  | |- match ?r with HttpThrow _ => _ | HttpResp _ _ _ => _ end => destruct r
  | |- wp_bind _ _ _ _ _ => unfold wp_bind
  | |- wp_catch _ _ _ _ _ => unfold wp_catch
  end.

Lemma submitToBlockchain_good tid e request s :
  mgood tid (fun _ _ => True) s (submitToBlockchain tid e request).
Proof.
  unfold submitToBlockchain.
  repeat (wp_step; cbn [negb orb andb b_success]).
  all: exact I.
Qed.

Lemma run_events_app tid tr1 tr2 :
  run_events tid (tr1 ++ tr2) = run_events tid tr1 ++ run_events tid tr2.
Proof. unfold run_events. rewrite List.filter_app, map_app. reflexivity. Qed.

Lemma run_events_tagged tid i evs :
  run_events tid (map (pair i) evs) = if Nat.eqb i tid then evs else [].
Proof.
  unfold run_events. induction evs as [|ev evs IH]; cbn; [destruct (Nat.eqb i tid); reflexivity|].
  destruct (Nat.eqb i tid); cbn; rewrite IH; reflexivity.
Qed.

(** The runs in flight and the trace: the events of each run scan
    without failure up to a state from which its rest is [tgood]; no
    other run has events. *)
Definition pool_ok (p : pool) (w : cworld) : Prop :=
  (forall i t, p !! i = Some t ->
     exists s, reg_scan false (run_events i (c_trace w)) = Some s /\
               tgood i (fun _ _ => True) s t) /\
  (forall i, p !! i = None -> run_events i (c_trace w) = []).

Lemma step_ok i p w : pool_ok p w -> pool_ok (fst (step i p w)) (snd (step i p w)).
Proof.
  intros [Hrun Hnone]. unfold step.
  destruct (p !! i) as [[o | k]|] eqn:Hi; try (split; assumption).
  destruct (Hrun i _ Hi) as (s & Hs & Hk). cbn in Hk. specialize (Hk w).
  destruct (k w) as [t w1] eqn:Ek. destruct Hk as (evs & s1 & Htr & Hsc & Ht). cbn [fst snd].
  split.
  - intros j tj Hj. rewrite Htr, run_events_app, run_events_tagged.
    destruct (decide (i = j)) as [<-|Hne].
    + rewrite list_lookup_insert_eq in Hj by (eapply lookup_lt_Some; exact Hi).
      injection Hj as <-. rewrite Nat.eqb_refl. exists s1. split; [|exact Ht].
      rewrite run_scan_app, Hs. exact Hsc.
    + rewrite list_lookup_insert_ne in Hj by exact Hne.
      apply Nat.eqb_neq in Hne. rewrite Hne, app_nil_r. apply Hrun, Hj.
  - intros j Hj. rewrite Htr, run_events_app, run_events_tagged.
    destruct (decide (i = j)) as [<-|Hne].
    + rewrite list_lookup_insert_eq in Hj by (eapply lookup_lt_Some; exact Hi). discriminate.
    + rewrite list_lookup_insert_ne in Hj by exact Hne.
      apply Nat.eqb_neq in Hne. rewrite Hne, app_nil_r. apply Hnone, Hj.
Qed.

Lemma run_schedule_ok sched p w :
  pool_ok p w -> pool_ok (fst (run_schedule sched p w)) (snd (run_schedule sched p w)).
Proof.
  revert p w. induction sched as [|i sched IH]; intros p w H; [exact H|].
  cbn. pose proof (step_ok i p w H) as H1.
  destruct (step i p w) as [p1 w1]. apply IH, H1.
Qed.

Lemma start_ok jobs provider wallet :
  pool_ok (start jobs) (mkCWorld provider wallet []).
Proof.
  split; [|reflexivity].
  intros i t Hi. unfold start in Hi. rewrite list_lookup_imap in Hi.
  destruct (jobs !! i) as [job|]; [|discriminate]. cbn in Hi. injection Hi as <-.
  exists false. split; [reflexivity|]. apply (submitToBlockchain_good i (fst job) (snd job) false).
Qed.

Lemma run_scan_sound_from evs : forall seen s', reg_scan seen evs = Some s' ->
  forall i, evs !! i = Some CCastVote ->
    (exists j ev, (j < i)%nat /\ evs !! j = Some ev /\ registration_event ev /\
       forall k, (j < k < i)%nat -> evs !! k <> Some CSubmitToBlockchain) \/
    (seen = true /\ forall k, (k < i)%nat -> evs !! k <> Some CSubmitToBlockchain).
Proof.
  induction evs as [|ev evs IH]; intros seen s' H i Hi; [discriminate|].
  cbn in H. destruct (reg_step seen ev) as [s1|] eqn:Hstep; [|discriminate].
  destruct i as [|i].
  - cbn in Hi. injection Hi as ->. cbn in Hstep.
    destruct seen; [|discriminate]. right. split; [reflexivity|]. intros k Hk. lia.
  - cbn in Hi. destruct (IH s1 s' H i Hi) as [(j & ev' & Hj & Hjl & Hr & Hno) | [Hs1 Hno]].
    + left. exists (S j), ev'. split; [lia|]. split; [exact Hjl|]. split; [exact Hr|].
      intros [|k] Hk; [lia|]. apply Hno. lia.
    + subst s1.
      assert (Hreg : registration_event ev ->
                exists j ev0, (j < S i)%nat /\ (ev :: evs) !! j = Some ev0 /\
                  registration_event ev0 /\
                  forall k, (j < k < S i)%nat -> (ev :: evs) !! k <> Some CSubmitToBlockchain).
      { intros Hr. exists 0%nat, ev. split; [lia|]. split; [reflexivity|]. split; [exact Hr|].
        intros [|k] Hk; [lia|]. apply Hno. lia. }
      assert (Hkeep : seen = true -> ev <> CSubmitToBlockchain ->
                seen = true /\ forall k, (k < S i)%nat ->
                  (ev :: evs) !! k <> Some CSubmitToBlockchain).
      { intros Hs Hev. split; [exact Hs|]. intros [|k] Hk; cbn.
        - intros Heq. injection Heq. exact Hev.
        - apply Hno. lia. }
      destruct ev as [| a | a b | a [] | a | [] | | a]; cbn in Hstep.
      all: try (left; apply Hreg; unfold registration_event; eauto; fail).
      all: destruct seen; cbn in Hstep; try discriminate.
      all: right; apply Hkeep; [reflexivity | intros Heq; discriminate].
Qed.


Lemma run_scan_sound evs s : reg_scan false evs = Some s -> cast_after_registration evs.
Proof.
  intros H i Hi. destruct (run_scan_sound_from evs false s H i Hi) as [Hl | [Hf _]];
    [exact Hl | discriminate].
Qed.

Lemma run_schedule_runs_ok provider wallet jobs sched tid :
  exists s, reg_scan false (run_events tid (c_trace (snd (run_schedule sched (start jobs)
                                                   (mkCWorld provider wallet []))))) = Some s.
Proof.
  destruct (run_schedule_ok sched _ _ (start_ok jobs provider wallet)) as [Hrun Hnone].
  destruct (fst (run_schedule sched (start jobs) (mkCWorld provider wallet [])) !! tid)
    as [t|] eqn:Ht.
  - destruct (Hrun tid t Ht) as (s & Hs & _). exists s. exact Hs.
  - exists false. rewrite (Hnone tid Ht). reflexivity.
Qed.

End InterleavedProofs.



(** ** Shape of the sub-calls of [submitVote] *)

Definition add_trace (w : world) (evs : list ext_event) : world :=
  mkWorld (submissionQueue w) (statusCache w) (retryAttempts w) (timers w)
          (provider_ok w) (wallet w) (trace w ++ evs).

Definition add_trace_wallet (w : world) (a : option string) (evs : list ext_event) : world :=
  mkWorld (submissionQueue w) (statusCache w) (retryAttempts w) (timers w)
          (provider_ok w) a (trace w ++ evs).

Lemma add_trace_nil w : w = add_trace w [].
Proof. destruct w. unfold add_trace. cbn. rewrite app_nil_r. reflexivity. Qed.

Lemma add_trace_wallet_nil w : w = add_trace_wallet w (wallet w) [].
Proof. destruct w. unfold add_trace_wallet. cbn. rewrite app_nil_r. reflexivity. Qed.

(** A ledger transaction or the vote call itself. *)
Definition ledger_write (ev : ext_event) : Prop :=
  ev = EvRegisterVoterTx \/ ev = EvVoteTx \/ ev = EvCastVote.

Definition expired (e : attempt_env) (request : VoteSubmissionRequest) : Prop :=
  env_now_validate e - timestamp request > 5 * 60 * 1000.

(** The field checks that [validateSubmission] makes before the age
    check all pass. *)
Definition fields_ok (request : VoteSubmissionRequest) : bool :=
  truthy (electionId request) && truthy (candidateId request) && truthy (voterId request)
  && truthy (verificationCode request)
  && (String.length (verificationCode request) =? 6)%nat
  && truthy (biometricHash request) && truthy (deviceId request).

Lemma gtb_false_not_gt a b : (a >? b) = false -> a > b -> False.
Proof. rewrite Z.gtb_ltb, Z.ltb_ge. lia. Qed.

Ltac close_shape :=
  refine (f_equal2 pair eq_refl _);
  first
    [ apply add_trace_nil
    | apply add_trace_wallet_nil
    | unfold add_trace, add_trace_wallet; cbn; rewrite <- ?app_assoc; reflexivity ].

Lemma validateSubmission_expired e request w :
  expired e request -> fields_ok request = true ->
  validateSubmission e request w = (Ok (false, Some "Submission expired"), w).
Proof.
  unfold expired, fields_ok. intros Hexp Hf.
  apply Z.gt_lt, Z.ltb_lt in Hexp.
  unfold validateSubmission.
  destruct (truthy (electionId request)), (truthy (candidateId request)),
    (truthy (voterId request)), (truthy (verificationCode request)),
    (String.length (verificationCode request) =? 6)%nat,
    (truthy (biometricHash request)), (truthy (deviceId request)); try discriminate.
  cbn. rewrite Z.gtb_ltb, Hexp. reflexivity.
Qed.

Lemma validateSubmission_shape e request w :
  exists v evs, validateSubmission e request w = (Ok v, add_trace w evs) /\
    (forall ev, In ev evs -> ev = EvCheckExistingVote \/ exists b, ev = EvValidateHasVoterVoted b) /\
    (In (EvValidateHasVoterVoted true) evs -> v = (false, Some already_voted_msg)) /\
    (expired e request -> evs = [] /\ fst v = false).
Proof.
  unfold validateSubmission, checkExistingVote, expired,
    emit, catch_err, await_fetch, await_call, get_world, throw, modify_world,
    mbind, M_bind, mret, M_ret.
  split_paths.
  all: do 2 eexists; split; [close_shape|].
  all: cbn; repeat split; intros;
       try (exfalso; eapply gtb_false_not_gt; eassumption);
       intuition (subst; try discriminate; eauto).
Qed.

Lemma submitToBlockchain_shape e request w :
  exists resp a evs, submitToBlockchain e request w = (Ok resp, add_trace_wallet w a evs) /\
    (forall b, ~ In (EvValidateHasVoterVoted b) evs) /\
    (In (EvHasVoterVoted true) evs ->
       resp = failure_response already_voted_msg /\ forall ev, In ev evs -> ~ ledger_write ev).
Proof.
  unfold submitToBlockchain, connectWallet, registerVoter, castVote,
    emit, catch_err, await_fetch, await_call, get_world, throw, modify_world,
    mbind, M_bind, mret, M_ret.
  split_paths.
  all: do 3 eexists; split; [close_shape|].
  all: cbn; split; [intros b; intuition discriminate|].
  all: intros Hin; intuition (try discriminate);
       unfold ledger_write in *; intuition (subst; discriminate).
Qed.

Lemma submitToBackend_shape e request h w :
  exists resp, submitToBackend e request h w = (Ok resp, add_trace w [EvSubmitToBackend]).
Proof.
  unfold submitToBackend, emit, mbind, M_bind, mret, M_ret. cbn.
  destruct (negb _); eexists; reflexivity.
Qed.

Lemma updateStatus_some id st u w x :
  statusCache w !! id = Some x ->
  updateStatus id st u w = (Ok tt, with_cache (<[id := apply_updates x st u]> (statusCache w)) w).
Proof. intros H. unfold updateStatus. rewrite H. reflexivity. Qed.

(** The [catch] block of [submitVote] on a submission that has a status
    record: the retry branch and the give-up branch. *)
Lemma submitVote_onError_eq id msg w st :
  statusCache w !! id = Some st ->
  submitVote_onError id msg w =
  let r := default 0 (retryAttempts w !! id) in
  let c := <[id := apply_updates st Failed (mkUpdates None None None (Some msg) None)]>
             (statusCache w) in
  if r <? maxRetries
  then (Ok (mkResponse false None None None None None (Some msg) (Some (retryDelay * (r + 1)))),
        mkWorld (submissionQueue w) c (<[id := r + 1]> (retryAttempts w))
                (timers w ++ [(retryDelay * (r + 1), id)]) (provider_ok w) (wallet w) (trace w))
  else (Ok (failure_response msg),
        mkWorld (delete id (submissionQueue w)) c (delete id (retryAttempts w))
                (timers w) (provider_ok w) (wallet w) (trace w)).
Proof.
  intros H. unfold submitVote_onError. unfold mbind, M_bind at 1.
  rewrite (updateStatus_some _ _ _ _ _ H). cbn.
  destruct (_ <? _); reflexivity.
Qed.

(** Stepping through [submitVote]: the sub-calls are replaced by their
    shapes, the status updates and the handler by their equations. *)
Ltac sv_cbn := cbn -[validateSubmission submitToBlockchain submitToBackend updateStatus
                     submitVote_onError generateSubmissionId].

Ltac upd := erewrite updateStatus_some by (cbn; apply lookup_insert_eq); sv_cbn.

Ltac on_err := erewrite submitVote_onError_eq by (cbn; apply lookup_insert_eq); sv_cbn.

Ltac run_sub :=
  lazymatch goal with
  | |- context [validateSubmission ?e ?r ?W] =>
      let v := fresh "v" in let evs := fresh "vevs" in let Hv := fresh "Hv" in
      let H1 := fresh "Hvk" in let H2 := fresh "Hvt" in let H3 := fresh "Hvx" in
      destruct (validateSubmission_shape e r W) as (v & evs & Hv & H1 & H2 & H3); rewrite Hv
  | |- context [submitToBlockchain ?e ?r ?W] =>
      let v := fresh "b" in let a := fresh "a" in let evs := fresh "bevs" in
      let Hv := fresh "Hb" in let H1 := fresh "Hbk" in let H2 := fresh "Hbt" in
      destruct (submitToBlockchain_shape e r W) as (v & a & evs & Hv & H1 & H2); rewrite Hv
  | |- context [submitToBackend ?e ?r ?h ?W] =>
      let v := fresh "k" in let Hv := fresh "Hk" in
      destruct (submitToBackend_shape e r h W) as (v & Hv); rewrite Hv
  end.

(** The new events of a run, read off its final trace. *)
Ltac new_events Htr :=
  cbn in Htr; rewrite <- ?app_assoc in Htr; apply app_inv_head in Htr.

(** The conclusion of a failed attempt whose error message is known. *)
Ltac close_c2 :=
  eexists; split; [reflexivity|]; cbn;
  split; [reflexivity|]; split; [reflexivity|];
  split; [eexists; split; [apply lookup_insert_eq | split; reflexivity]|];
  split; [assumption|];
  split; intros; first [lia | split; reflexivity].

(** ** Computations blind to the submission records

    [same_but_records w1 w2]: the worlds differ at most in the queue and
    the status cache. *)
Definition same_but_records (w1 w2 : world) : Prop :=
  retryAttempts w1 = retryAttempts w2 /\ timers w1 = timers w2 /\
  provider_ok w1 = provider_ok w2 /\ wallet w1 = wallet w2 /\ trace w1 = trace w2.

Definition records_blind {A} (m : M A) : Prop :=
  forall w1 w2, same_but_records w1 w2 ->
    fst (m w1) = fst (m w2) /\ same_but_records (snd (m w1)) (snd (m w2)).

Lemma blind_bind {A B} (m : M A) (f : A -> M B) :
  records_blind m -> (forall a, records_blind (f a)) -> records_blind (m ≫= f).
Proof.
  intros Hm Hf w1 w2 H. unfold mbind, M_bind. destruct (Hm w1 w2 H) as [E1 E2].
  destruct (m w1) as [[a|e] u1], (m w2) as [[a'|e'] u2]; cbn in *; try discriminate.
  - injection E1 as <-. apply Hf. exact E2.
  - injection E1 as <-. split; [reflexivity | exact E2].
Qed.

Lemma blind_catch {A} (m : M A) (h : string -> M A) :
  records_blind m -> (forall msg, records_blind (h msg)) -> records_blind (catch_err m h).
Proof.
  intros Hm Hh w1 w2 H. unfold catch_err. destruct (Hm w1 w2 H) as [E1 E2].
  destruct (m w1) as [[a|e] u1], (m w2) as [[a'|e'] u2]; cbn in *; try discriminate.
  - injection E1 as <-. split; [reflexivity | exact E2].
  - injection E1 as <-. apply Hh. exact E2.
Qed.

Lemma blind_ret {A} (a : A) : records_blind (mret a).
Proof. intros w1 w2 H. split; [reflexivity | exact H]. Qed.

Lemma blind_throw {A} (msg : string) : records_blind (throw (A:=A) msg).
Proof. intros w1 w2 H. split; [reflexivity | exact H]. Qed.

Lemma blind_await {A} (c : call_result A) : records_blind (await_call c).
Proof. destruct c; [apply blind_ret | apply blind_throw]. Qed.

Lemma blind_fetch (r : http_result) : records_blind (await_fetch r).
Proof. destruct r; [apply blind_throw | apply blind_ret]. Qed.

Lemma blind_modify (f : world -> world) :
  (forall w1 w2, same_but_records w1 w2 -> same_but_records (f w1) (f w2)) ->
  records_blind (modify_world f).
Proof. intros Hf w1 w2 H. split; [reflexivity | exact (Hf w1 w2 H)]. Qed.

Lemma blind_emit (ev : ext_event) : records_blind (emit ev).
Proof.
  intros w1 w2 (Hr & Ht & Hp & Ha & Htr). split; [reflexivity|].
  cbn. unfold same_but_records. cbn. rewrite Htr. tauto.
Qed.

Lemma blind_updateStatus id st u : records_blind (updateStatus id st u).
Proof.
  intros w1 w2 H. unfold updateStatus.
  destruct (statusCache w1 !! id), (statusCache w2 !! id); split; try reflexivity; exact H.
Qed.

(** [w ← get_world; k w] where [k] reads only fields that agree. *)
Lemma blind_get {A} (k : world -> M A) :
  (forall w1 w2, same_but_records w1 w2 -> k w1 = k w2) ->
  (forall w, records_blind (k w)) -> records_blind (get_world ≫= k).
Proof.
  intros Hk Hb w1 w2 H. unfold mbind, M_bind, get_world.
  rewrite (Hk w1 w2 H). apply Hb. exact H.
Qed.

Create HintDb blind.
#[local] Hint Resolve blind_ret blind_throw blind_await blind_fetch blind_emit
  blind_updateStatus : blind.

Ltac blind_step :=
  intros;
  first
    [ solve [eauto with blind]
    | match goal with
      | |- records_blind (get_world ≫= _) =>
          apply blind_get;
          [ let H := fresh in
            intros ?w1 ?w2 H; destruct H as (?Hr & ?Ht & ?Hp & ?Ha & ?Htr);
            cbv beta; rewrite ?Hr, ?Hp, ?Ha; reflexivity | ]
      | |- records_blind (_ ≫= _) => apply blind_bind
      | |- records_blind (catch_err _ _) => apply blind_catch
      | |- records_blind (modify_world _) =>
          apply blind_modify;
          let H := fresh in
          intros ?w1 ?w2 H; destruct H as (?Hr & ?Ht & ?Hp & ?Ha & ?Htr);
          unfold same_but_records; cbn; rewrite ?Hr, ?Ht, ?Hp, ?Ha, ?Htr; tauto
      | |- records_blind (if ?b then _ else _) => destruct b
      | |- records_blind (match ?x with _ => _ end) => destruct x
      | |- records_blind ((if ?b then _ else _) _) => destruct b
      end
    | progress cbv zeta ].

Ltac blind_solve := repeat blind_step.

Lemma blind_connectWallet e key : records_blind (connectWallet e key).
Proof. unfold connectWallet. blind_solve. Qed.

Lemma blind_registerVoter e a : records_blind (registerVoter e a).
Proof. unfold registerVoter. blind_solve. Qed.

Lemma blind_castVote e c : records_blind (castVote e c).
Proof. unfold castVote. blind_solve. Qed.

#[local] Hint Resolve blind_connectWallet blind_registerVoter blind_castVote : blind.

Lemma blind_submitToBlockchain e request : records_blind (submitToBlockchain e request).
Proof. unfold submitToBlockchain. blind_solve. Qed.

Lemma blind_validateSubmission e request : records_blind (validateSubmission e request).
Proof. unfold validateSubmission, checkExistingVote. blind_solve. Qed.

Lemma blind_submitToBackend e request h : records_blind (submitToBackend e request h).
Proof. unfold submitToBackend. blind_solve. Qed.

Lemma blind_submitVote_onError id msg : records_blind (submitVote_onError id msg).
Proof. unfold submitVote_onError. blind_solve. Qed.

#[local] Hint Resolve blind_submitToBlockchain blind_validateSubmission blind_submitToBackend
  blind_submitVote_onError : blind.

Lemma blind_submitVote e request : records_blind (submitVote e request).
Proof. unfold submitVote, submitVote_body. blind_solve. Qed.

(** ** Duplicate votes *)

(** C1 (amended): [validateSubmission] rejects a request with the
    already-voted message exactly when the ledger query [hasVoterVoted]
    made during validation returned [true]; the request is then invalid.
    It makes that query only when [voterAddress] and [electionId] are
    both set. Its database pre-check [checkExistingVote] never rejects,
    and the result does not depend on the service's submission queue or
    status cache, so an earlier confirmed submission of the same pair is
    not consulted. *)
Theorem validateSubmission_already_voted_only_from_ledger e request w :
  exists v evs, validateSubmission e request w = (Ok v, add_trace w evs) /\
    (snd v = Some already_voted_msg <-> In (EvValidateHasVoterVoted true) evs) /\
    (In (EvValidateHasVoterVoted true) evs -> v = (false, Some already_voted_msg)) /\
    (forall b, In (EvValidateHasVoterVoted b) evs ->
       truthy (voterAddress request) = true /\ truthy (electionId request) = true) /\
    snd v <> Some "User has already voted in this election" /\
    (forall q c, fst (validateSubmission e request
                        (mkWorld q c (retryAttempts w) (timers w) (provider_ok w)
                                 (wallet w) (trace w))) = Ok v).
Proof.
  assert (Hb : forall q c, fst (validateSubmission e request
                  (mkWorld q c (retryAttempts w) (timers w) (provider_ok w) (wallet w) (trace w)))
                = fst (validateSubmission e request w)).
  { intros q c. apply blind_validateSubmission. unfold same_but_records; cbn; tauto. }
  revert Hb.
  unfold validateSubmission, checkExistingVote,
    emit, catch_err, await_fetch, await_call, get_world, throw, modify_world,
    mbind, M_bind, mret, M_ret.
  split_paths.
  all: intros Hb; do 2 eexists; split; [close_shape|].
  all: cbn; split; [split; intros H; intuition discriminate|].
  all: split; [intros H; first [reflexivity | exfalso; intuition discriminate]|].
  all: split; [intros b0 H; first [apply andb_prop; assumption | exfalso; intuition discriminate]|].
  all: split; [discriminate|exact Hb].
Qed.

(** C1 counterexample: after a run that confirms [sample_request], a
    second request of the same pair (without [voterAddress]) passes
    validation; when the ledger answers that the voter has not voted and
    accepts the vote, the second submission is confirmed too, so the
    pair has two confirmed records. *)
Lemma confirmed_vote_passes_second_validation :
  let id1 := generateSubmissionId sample_request "k3j5x9" in
  let id2 := generateSubmissionId sample_request "m8q2t1" in
  let w1 := snd (submitVote (healthy_env "k3j5x9" sample_time) sample_request empty_world) in
  let w2 := snd (submitVote (healthy_env "m8q2t1" sample_time) sample_request w1) in
  option_map status (statusCache w1 !! id1) = Some Confirmed /\
  fst (validateSubmission (voted_env "m8q2t1" sample_time) sample_request w1) = Ok (true, None) /\
  id1 <> id2 /\
  option_map status (statusCache w2 !! id1) = Some Confirmed /\
  option_map status (statusCache w2 !! id2) = Some Confirmed.
Proof. vm_compute. repeat split; first [reflexivity | discriminate]. Qed.

(** C2 (amended): when the ledger reports that the voter has already
    voted (in validation or in [submitToBlockchain]), the [submitVote]
    attempt fails with the already-voted message, its status record is
    [failed] with that message, no ledger transaction and no [castVote]
    call is made; like any failure, it is retried after
    [retryDelay * (r + 1)] ms while its retry count [r] is below
    [maxRetries], and given up otherwise. *)
Theorem submitVote_already_voted_failure e request w res w' evs :
  submitVote e request w = (res, w') ->
  trace w' = trace w ++ evs ->
  In (EvValidateHasVoterVoted true) evs \/ In (EvHasVoterVoted true) evs ->
  let id := generateSubmissionId request (env_id_random e) in
  let r := default 0 (retryAttempts w !! id) in
  exists resp, res = Ok resp /\ success resp = false /\
    r_error resp = Some already_voted_msg /\
    (exists st, statusCache w' !! id = Some st /\ status st = Failed /\
                s_error st = Some already_voted_msg) /\
    (forall ev, In ev evs -> ~ ledger_write ev) /\
    (r < maxRetries -> retryAfter resp = Some (retryDelay * (r + 1)) /\
       timers w' = timers w ++ [(retryDelay * (r + 1), id)]) /\
    (maxRetries <= r -> retryAfter resp = None /\ timers w' = timers w).
Proof.
  intros Hrun Htr Hin id r.
  revert Hrun.
  unfold submitVote, catch_err, submitVote_body. fold id.
  unfold mbind, M_bind, modify_world. sv_cbn.
  run_sub. sv_cbn.
  destruct v as [[|] vmsg]; sv_cbn.
  - (* validation passed *)
    upd. run_sub. sv_cbn.
    destruct (success b) eqn:Hsb; sv_cbn.
    + run_sub. sv_cbn. destruct (success k) eqn:Hsk; sv_cbn.
      * upd. intros [= <- <-]. new_events Htr. subst evs.
        exfalso. rewrite !in_app_iff in Hin.
        destruct Hin as [[Hi|[Hi|[Hi|[]]]]|[Hi|[Hi|[Hi|[]]]]].
        -- specialize (Hvt Hi). discriminate.
        -- exact (Hbk true Hi).
        -- discriminate.
        -- destruct (Hvk _ Hi) as [|[? ?]]; discriminate.
        -- rewrite (proj1 (Hbt Hi)) in Hsb. discriminate.
        -- discriminate.
      * on_err. fold r.
        destruct (Z.ltb_spec r maxRetries); intros [= <- <-]; new_events Htr; subst evs;
          exfalso; rewrite !in_app_iff in Hin;
          destruct Hin as [[Hi|[Hi|[Hi|[]]]]|[Hi|[Hi|[Hi|[]]]]];
          solve [ specialize (Hvt Hi); discriminate
                | exact (Hbk true Hi)
                | discriminate
                | destruct (Hvk _ Hi) as [|[? ?]]; discriminate
                | rewrite (proj1 (Hbt Hi)) in Hsb; discriminate ].
    + on_err. fold r.
      destruct (Z.ltb_spec r maxRetries); intros [= <- <-]; new_events Htr; subst evs.
      all: assert (Hb' : b = failure_response already_voted_msg /\
                    forall ev, In ev (vevs ++ bevs) -> ~ ledger_write ev).
      all: try solve [ rewrite !in_app_iff in Hin;
        destruct Hin as [[Hi|Hi]|[Hi|Hi]];
        [ specialize (Hvt Hi); discriminate
        | exfalso; exact (Hbk true Hi)
        | destruct (Hvk _ Hi) as [|[? ?]]; discriminate
        | split; [exact (proj1 (Hbt Hi))|]; intros ev Hev; apply in_app_iff in Hev;
          destruct Hev as [Hev|Hev]; [|exact (proj2 (Hbt Hi) ev Hev)];
          unfold ledger_write; destruct (Hvk _ Hev) as [->|[? ->]]; intuition discriminate ] ].
      all: destruct Hb' as [-> Hnw]; close_c2.
  - (* validation failed *)
    on_err. fold r.
    destruct (Z.ltb_spec r maxRetries); intros [= <- <-]; new_events Htr; subst evs.
    all: assert (Hnw : forall ev, In ev vevs -> ~ ledger_write ev)
           by (intros ev Hev; unfold ledger_write;
               destruct (Hvk _ Hev) as [->|[? ->]]; intuition discriminate).
    all: destruct Hin as [Hi|Hi];
           [ injection (Hvt Hi) as ->
           | destruct (Hvk _ Hi) as [|[? ?]]; discriminate ].
    all: close_c2.
Qed.

Lemma submitVote_already_voted_failure_witness :
  let e := voted_env "k3j5x9" sample_time in
  let id := generateSubmissionId sample_request (env_id_random e) in
  let r := default 0 (retryAttempts empty_world !! id) in
  let res := fst (submitVote e sample_request empty_world) in
  let w' := snd (submitVote e sample_request empty_world) in
  let evs := [EvCheckExistingVote; EvSubmitToBlockchain; EvConnectWallet; EvHasVoterVoted true] in
  exists resp, res = Ok resp /\ success resp = false /\
    r_error resp = Some already_voted_msg /\
    (exists st, statusCache w' !! id = Some st /\ status st = Failed /\
                s_error st = Some already_voted_msg) /\
    (forall ev, In ev evs -> ~ ledger_write ev) /\
    (r < maxRetries -> retryAfter resp = Some (retryDelay * (r + 1)) /\
       timers w' = timers empty_world ++ [(retryDelay * (r + 1), id)]) /\
    (maxRetries <= r -> retryAfter resp = None /\ timers w' = timers empty_world).
Proof.
  apply (submitVote_already_voted_failure (voted_env "k3j5x9" sample_time) sample_request
           empty_world (fst (submitVote (voted_env "k3j5x9" sample_time) sample_request empty_world))
           (snd (submitVote (voted_env "k3j5x9" sample_time) sample_request empty_world))
           [EvCheckExistingVote; EvSubmitToBlockchain; EvConnectWallet; EvHasVoterVoted true]).
  - apply surjective_pairing.
  - vm_compute. reflexivity.
  - right. right. right. right. left. reflexivity.
Defined.

(** C2 counterexample: the ledger reports a vote already cast; the
    attempt fails with the already-voted message and a retry is
    scheduled 5000 ms later. *)
Lemma already_voted_retry_scheduled :
  let id := generateSubmissionId sample_request "k3j5x9" in
  let '(res, w') := submitVote (voted_env "k3j5x9" sample_time) sample_request empty_world in
  trace w' = [EvCheckExistingVote; EvSubmitToBlockchain; EvConnectWallet; EvHasVoterVoted true] /\
  option_map status (statusCache w' !! id) = Some Failed /\
  timers w' = [(5000, id)] /\
  res = Ok (mkResponse false None None None None None (Some already_voted_msg) (Some 5000)).
Proof. vm_compute. repeat split; reflexivity. Qed.

(** ** Retries *)

(** C3 (divergence from the code): [retrySubmission] re-runs
    [submitVote], which draws a new submission id, so the retry count
    of the new id starts again at 0. An expired request fails on every
    attempt: after the first attempt and five retries (more than
    [maxRetries]) six ids carry a retry count of 1, and a retry timer
    is still pending. *)
Theorem retry_chain_never_settles :
  let w := exec retry_chain empty_world in
  timers w = [(retryDelay, generateSubmissionId sample_request "r5ffff")] /\
  retryAttempts w !! generateSubmissionId sample_request "r0aaaa" = Some 1 /\
  retryAttempts w !! generateSubmissionId sample_request "r5ffff" = Some 1 /\
  map_size (retryAttempts w) = 6%nat /\
  map_size (submissionQueue w) = 6%nat.
Proof. vm_compute. repeat split; reflexivity. Qed.

(** C4 (amended): when an attempt fails (whatever the error) and its
    retry count [r] is below [maxRetries], the [catch] block sets the
    status to [failed] with the error message (not back to [pending]),
    stores the retry count [r + 1], and schedules a retry after
    [retryDelay * (r + 1)] ms with [retryDelay = 5000]. *)
Theorem submitVote_onError_retry id msg w st
  (Hst : statusCache w !! id = Some st)
  (Hr : default 0 (retryAttempts w !! id) < maxRetries) :
  let r := default 0 (retryAttempts w !! id) in
  submitVote_onError id msg w =
    (Ok (mkResponse false None None None None None (Some msg) (Some (retryDelay * (r + 1)))),
     mkWorld (submissionQueue w)
       (<[id := apply_updates st Failed (mkUpdates None None None (Some msg) None)]> (statusCache w))
       (<[id := r + 1]> (retryAttempts w))
       (timers w ++ [(retryDelay * (r + 1), id)])
       (provider_ok w) (wallet w) (trace w)) /\
  status (apply_updates st Failed (mkUpdates None None None (Some msg) None)) = Failed.
Proof.
  intros r. split; [|reflexivity].
  rewrite (submitVote_onError_eq _ _ _ _ Hst). cbv zeta. fold r.
  apply Z.ltb_lt in Hr. fold r in Hr. rewrite Hr. reflexivity.
Qed.

Lemma submitVote_onError_retry_witness :
  let w := snd (submitVote (backend_down_env "k3j5x9" sample_time) sample_request empty_world) in
  let id := generateSubmissionId sample_request "k3j5x9" in
  let msg := "Backend service unavailable" in
  let st := mkStatus id Failed None None None (Some msg) sample_time None in
  let r := default 0 (retryAttempts w !! id) in
  submitVote_onError id msg w =
    (Ok (mkResponse false None None None None None (Some msg) (Some (retryDelay * (r + 1)))),
     mkWorld (submissionQueue w)
       (<[id := apply_updates st Failed (mkUpdates None None None (Some msg) None)]> (statusCache w))
       (<[id := r + 1]> (retryAttempts w))
       (timers w ++ [(retryDelay * (r + 1), id)])
       (provider_ok w) (wallet w) (trace w)) /\
  status (apply_updates st Failed (mkUpdates None None None (Some msg) None)) = Failed.
Proof. apply submitVote_onError_retry; vm_compute; reflexivity. Defined.

(** C4 counterexample: a run whose backend call fails leaves the record
    [failed], not [pending], with retry count 1 and a retry in 5000 ms. *)
Lemma backend_failure_status_failed :
  let id := generateSubmissionId sample_request "k3j5x9" in
  let w' := snd (submitVote (backend_down_env "k3j5x9" sample_time) sample_request empty_world) in
  option_map status (statusCache w' !! id) = Some Failed /\
  retryAttempts w' !! id = Some 1 /\ timers w' = [(5000, id)].
Proof. vm_compute. repeat split; reflexivity. Qed.

(** ** Submissions in flight *)

(** C6 (amended): [submitVote] makes no in-flight duplicate check: its
    response does not depend on the submission queue or the status
    cache it starts from, so a request of a pair whose earlier
    submission is still [processing] is run like any other, under its
    own new id. *)
Theorem submitVote_ignores_queue_and_cache e request w q c :
  fst (submitVote e request
         (mkWorld q c (retryAttempts w) (timers w) (provider_ok w) (wallet w) (trace w)))
  = fst (submitVote e request w).
Proof. apply blind_submitVote. unfold same_but_records; cbn; tauto. Qed.

(** C6 counterexample: while a submission of [sample_request] is
    [processing], a second one of the same pair is confirmed. *)
Lemma inflight_duplicate_confirmed :
  let id2 := generateSubmissionId sample_request "m8q2t1" in
  let '(res, w') := submitVote (healthy_env "m8q2t1" sample_time) sample_request inflight_world in
  res = Ok (mkResponse true (Some id2) (Some "0xVOTE") (Some 11) (Some "confirm_1700000003000_1")
              (Some "Vote submitted successfully") None None) /\
  option_map status (statusCache w' !! inflight_id) = Some Processing /\
  option_map status (statusCache w' !! id2) = Some Confirmed.
Proof. vm_compute. repeat split; reflexivity. Qed.

(** ** Expired requests *)

(** C7 (amended): a request validated more than five minutes after its
    timestamp fails validation, before any external call: the trace is
    unchanged, so [submitToBlockchain] is not entered, and the record is
    [failed]. When the earlier field checks pass, the error is
    "Submission expired". The failure is handled like any other: while
    the retry count [r] is below [maxRetries] a retry is scheduled after
    [retryDelay * (r + 1)] ms and the request stays in the queue; once
    [r] reaches [maxRetries] it is removed from the queue. *)
Theorem submitVote_expired_request e request w (Hexp : expired e request) :
  let id := generateSubmissionId request (env_id_random e) in
  let r := default 0 (retryAttempts w !! id) in
  exists resp w', submitVote e request w = (Ok resp, w') /\
    success resp = false /\ trace w' = trace w /\
    (exists st, statusCache w' !! id = Some st /\ status st = Failed) /\
    (fields_ok request = true ->
       r_error resp = Some "Submission expired" /\
       exists st, statusCache w' !! id = Some st /\ s_error st = Some "Submission expired") /\
    (r < maxRetries -> retryAfter resp = Some (retryDelay * (r + 1)) /\
       timers w' = timers w ++ [(retryDelay * (r + 1), id)] /\
       submissionQueue w' !! id = Some request) /\
    (maxRetries <= r -> retryAfter resp = None /\ timers w' = timers w /\
       submissionQueue w' !! id = None).
Proof.
  intros id r.
  unfold submitVote, catch_err, submitVote_body. fold id.
  unfold mbind, M_bind, modify_world. sv_cbn.
  run_sub.
  assert (Hmsg : fields_ok request = true -> v = (false, Some "Submission expired")).
  { intros Hf. rewrite validateSubmission_expired in Hv by assumption.
    inversion Hv. reflexivity. }
  destruct (Hvx Hexp) as [-> Hf]. destruct v as [ok vmsg]; cbn in Hf; subst ok.
  sv_cbn. on_err. fold r.
  destruct (Z.ltb_spec r maxRetries); do 2 eexists; (split; [reflexivity|]); cbn;
    rewrite ?app_nil_r; (split; [reflexivity|]); (split; [reflexivity|]);
    (split; [eexists; split; [apply lookup_insert_eq | reflexivity]|]);
    (split; [intros Hfo; injection (Hmsg Hfo) as ->; cbn; split;
             [reflexivity | eexists; split; [apply lookup_insert_eq | reflexivity]]|]);
    split; intros; try lia; repeat split.
  - apply lookup_insert_eq.
  - apply lookup_delete_eq.
Qed.

Lemma submitVote_expired_request_witness :
  let e := late_env "k3j5x9" in
  let id := generateSubmissionId sample_request (env_id_random e) in
  let r := default 0 (retryAttempts empty_world !! id) in
  exists resp w', submitVote e sample_request empty_world = (Ok resp, w') /\
    success resp = false /\ trace w' = trace empty_world /\
    (exists st, statusCache w' !! id = Some st /\ status st = Failed) /\
    (fields_ok sample_request = true ->
       r_error resp = Some "Submission expired" /\
       exists st, statusCache w' !! id = Some st /\ s_error st = Some "Submission expired") /\
    (r < maxRetries -> retryAfter resp = Some (retryDelay * (r + 1)) /\
       timers w' = timers empty_world ++ [(retryDelay * (r + 1), id)] /\
       submissionQueue w' !! id = Some sample_request) /\
    (maxRetries <= r -> retryAfter resp = None /\ timers w' = timers empty_world /\
       submissionQueue w' !! id = None).
Proof. apply submitVote_expired_request. unfold expired. vm_compute. reflexivity. Defined.

(** C7 counterexample: an expired request fails validation with
    "Submission expired", and a retry is scheduled 5000 ms later. *)
Lemma expired_request_retry_scheduled :
  let id := generateSubmissionId sample_request "k3j5x9" in
  let '(res, w') := submitVote (late_env "k3j5x9") sample_request empty_world in
  res = Ok (mkResponse false None None None None None (Some "Submission expired") (Some 5000)) /\
  trace w' = [] /\ timers w' = [(5000, id)].
Proof. vm_compute. repeat split; reflexivity. Qed.

(** ** Backend confirmation *)

(** C8 (amended): [submitToBackend] ignores the transaction hash and
    changes no state of the service (it only makes its call); a
    successful response carries the confirmation id
    [confirm_<Date.now() at the call>_<candidateId>], which depends on
    the time of the call. *)
Theorem submitToBackend_ignores_txHash e request h1 h2 w :
  submitToBackend e request h1 w = submitToBackend e request h2 w /\
  snd (submitToBackend e request h1 w) = add_trace w [EvSubmitToBackend] /\
  (forall resp, fst (submitToBackend e request h1 w) = Ok resp -> success resp = true ->
     confirmationId resp =
       Some ("confirm_" +s+ to_radix_string 10 (env_now_backend e) +s+ "_" +s+ candidateId request)).
Proof.
  unfold submitToBackend, emit, mbind, M_bind, mret, M_ret. cbn.
  destruct (negb _); cbn; (split; [reflexivity|]); (split; [reflexivity|]);
    intros resp [= <-]; cbn; congruence.
Qed.

(** C8 counterexample: two calls with the same request and transaction
    hash, one second apart, give different responses (their
    confirmation ids differ). *)
Lemma confirmationId_depends_on_time :
  fst (submitToBackend (healthy_env "k3j5x9" sample_time) sample_request "0xVOTE" empty_world) <>
  fst (submitToBackend (healthy_env "k3j5x9" (sample_time + 1000)) sample_request "0xVOTE"
         empty_world).
Proof. vm_compute. discriminate. Qed.

(** ** Cancellation *)

(** C9 (amended): [cancelSubmission] returns [true] exactly when the id
    is in the submission queue, whatever its status; it then removes the
    id from the queue and the retry counts and sets the status record
    (if any) to [rejected]. Otherwise it returns [false] and changes
    nothing. *)
Theorem cancelSubmission_by_queue_only id w :
  fst (cancelSubmission id w) = Ok (bool_decide (is_Some (submissionQueue w !! id))) /\
  (submissionQueue w !! id = None -> snd (cancelSubmission id w) = w) /\
  (forall st, is_Some (submissionQueue w !! id) -> statusCache w !! id = Some st ->
     let w' := snd (cancelSubmission id w) in
     submissionQueue w' !! id = None /\ retryAttempts w' !! id = None /\
     statusCache w' !! id = Some (apply_updates st Rejected no_updates) /\
     status (apply_updates st Rejected no_updates) = Rejected).
Proof.
  unfold cancelSubmission, updateStatus, get_world, modify_world, mbind, M_bind, mret, M_ret.
  cbn. destruct (submissionQueue w !! id) as [req|] eqn:Hq; cbn.
  - destruct (statusCache w !! id) as [cur|] eqn:Hc; cbn.
    all: split; [reflexivity|]; split; [discriminate|]; intros st _ Hst.
    2: discriminate.
    injection Hst as <-. rewrite lookup_delete_eq, lookup_delete_eq, lookup_insert_eq.
    repeat split.
  - split; [reflexivity|]. split; [reflexivity|]. intros st [? ?]; discriminate.
Qed.

(** C9 counterexample: cancelling a submission that is [processing]
    succeeds and marks it [rejected]. *)
Lemma cancel_processing_succeeds :
  let '(res, w') := cancelSubmission inflight_id inflight_world in
  res = Ok true /\ option_map status (statusCache w' !! inflight_id) = Some Rejected /\
  submissionQueue w' = ∅.
Proof. vm_compute. repeat split; reflexivity. Qed.

(** ** Further properties of the service and of its callers *)

(** *** Helpers *)

Lemma submitToBlockchain_success e request w :
  exists resp a evs, submitToBlockchain e request w = (Ok resp, add_trace_wallet w a evs) /\
    (success resp = true -> In EvVoteTx evs).
Proof.
  unfold submitToBlockchain, connectWallet, registerVoter, castVote,
    emit, catch_err, await_fetch, await_call, get_world, throw, modify_world,
    mbind, M_bind, mret, M_ret.
  split_paths.
  all: do 3 eexists; split; [close_shape|].
  all: cbn; try discriminate; intros _; rewrite ?in_app_iff; cbn; tauto.
Qed.

Lemma submitVote_paths e request w res w' :
  submitVote e request w = (res, w') ->
  let id := generateSubmissionId request (env_id_random e) in
  let r := default 0 (retryAttempts w !! id) in
  exists resp st, res = Ok resp /\
    statusCache w' = <[id := st]> (statusCache w) /\
    (status st = Confirmed \/ status st = Failed) /\
    ((submissionQueue w' = delete id (submissionQueue w) /\
      retryAttempts w' = delete id (retryAttempts w) /\ timers w' = timers w) \/
     (r < maxRetries /\ submissionQueue w' = <[id := request]> (submissionQueue w) /\
      retryAttempts w' = <[id := r + 1]> (retryAttempts w) /\
      timers w' = timers w ++ [(retryDelay * (r + 1), id)])).
Proof.
  intros Hrun id r. revert Hrun.
  unfold submitVote, catch_err, submitVote_body. fold id.
  unfold mbind, M_bind, modify_world. sv_cbn.
  run_sub. sv_cbn.
  destruct v as [[|] vmsg]; sv_cbn.
  - upd. run_sub. sv_cbn.
    destruct (success b) eqn:Hsb; sv_cbn.
    + run_sub. sv_cbn. destruct (success k) eqn:Hsk; sv_cbn.
      * upd. intros [= <- <-]. do 2 eexists. split; [reflexivity|]. cbn.
        rewrite !insert_insert_eq, delete_insert_eq.
        split; [reflexivity|]. split; [left; reflexivity|]. left. auto.
      * on_err. fold r. destruct (Z.ltb_spec r maxRetries); intros [= <- <-];
          do 2 eexists; (split; [reflexivity|]); cbn; rewrite !insert_insert_eq;
          (split; [reflexivity|]); (split; [right; reflexivity|]);
          [right | left; rewrite delete_insert_eq]; auto.
    + on_err. fold r. destruct (Z.ltb_spec r maxRetries); intros [= <- <-];
        do 2 eexists; (split; [reflexivity|]); cbn; rewrite !insert_insert_eq;
        (split; [reflexivity|]); (split; [right; reflexivity|]);
        [right | left; rewrite delete_insert_eq]; auto.
  - on_err. fold r. destruct (Z.ltb_spec r maxRetries); intros [= <- <-];
      do 2 eexists; (split; [reflexivity|]); cbn; rewrite ?insert_insert_eq;
      (split; [reflexivity|]); (split; [right; reflexivity|]);
      [right | left; rewrite delete_insert_eq]; auto.
Qed.

Lemma useVoting_validation e electionId_ candidateId_ userId walletAddress token_ now w :
  validateSubmission e (useVoting_request electionId_ candidateId_ userId walletAddress token_ now) w =
  (Ok (false, Some (if truthy electionId_ && truthy candidateId_ && truthy userId
                    then "Invalid verification code" else "Missing required fields")), w).
Proof.
  unfold validateSubmission, useVoting_request. cbn [electionId candidateId voterId verificationCode].
  destruct (truthy electionId_), (truthy candidateId_), (truthy userId); reflexivity.
Qed.

Lemma count_foldr (l : list (string * VoteSubmissionStatus)) :
  let s := foldr (uncurry (fun _ st s => count_status s (status st))) (mkStats 0 0 0 0 0 0) l in
  total s = Z.of_nat (List.length l) /\
  total s = pending s + processing s + confirmed s + failed s + rejected s /\
  pending s + processing s = Z.of_nat (List.length (List.filter is_pending_status (map snd l))).
Proof.
  induction l as [|[i st] l IH]; cbn zeta in *; [cbn; lia|].
  cbn [foldr uncurry map snd List.filter List.length].
  destruct IH as (H1 & H2 & H3).
  unfold is_pending_status at 1.
  destruct (status st); cbn [count_status total pending processing confirmed failed rejected List.length]; lia.
Qed.

Lemma fold_clear_id l w id :
  let w' := fold_left clear_id l w in
  (In id l -> statusCache w' !! id = None /\ submissionQueue w' !! id = None /\
              retryAttempts w' !! id = None) /\
  (~ In id l -> statusCache w' !! id = statusCache w !! id /\
               submissionQueue w' !! id = submissionQueue w !! id /\
               retryAttempts w' !! id = retryAttempts w !! id) /\
  timers w' = timers w /\ provider_ok w' = provider_ok w /\ wallet w' = wallet w /\
  trace w' = trace w.
Proof.
  revert w. induction l as [|x l IH]; intros w; cbn zeta in *; cbn [fold_left].
  - split; [intros []|]. repeat split.
  - destruct (IH (clear_id w x)) as (Hin & Hout & Ht & Hp & Ha & Htr).
    rewrite Ht, Hp, Ha, Htr.
    split; [|split; [|cbn; tauto]].
    + intros [<-|Hl]; [|exact (Hin Hl)].
      destruct (in_dec string_dec x l) as [Hl|Hl]; [exact (Hin Hl)|].
      destruct (Hout Hl) as (H1 & H2 & H3). rewrite H1, H2, H3. cbn.
      rewrite !lookup_delete_eq. auto.
    + intros Hn. destruct (Hout (fun H => Hn (or_intror H))) as (H1 & H2 & H3).
      rewrite H1, H2, H3. cbn.
      assert (x <> id) by (intros ->; apply Hn; left; reflexivity).
      rewrite !lookup_delete_ne by assumption. auto.
Qed.

(** *** Submission ids: the digits of [toString(36)] read back *)

Lemma radix_digit_value d : 0 <= d < 36 -> digit_value (radix_digit d) = d.
Proof.
  intros Hd.
  assert (Hall : forallb (fun k => Z.eqb (digit_value (radix_digit (Z.of_nat k))) (Z.of_nat k))
                   (seq 0 36) = true) by (vm_compute; reflexivity).
  rewrite forallb_forall in Hall.
  specialize (Hall (Z.to_nat d)). rewrite Z2Nat.id in Hall by lia.
  apply Z.eqb_eq, Hall, in_seq. lia.
Qed.

Lemma radix_digits_app radix f n acc rest :
  radix_digits radix f n acc +s+ rest = radix_digits radix f n (acc +s+ rest).
Proof.
  revert n acc. induction f as [|f IH]; intros n acc; cbn; [reflexivity|].
  destruct (n <? radix); [reflexivity|]. apply IH.
Qed.

Lemma radix_digits_S radix f n acc :
  radix_digits radix (S f) n acc =
  if n <? radix then String (radix_digit (n mod radix)) acc
  else radix_digits radix f (n / radix) (String (radix_digit (n mod radix)) acc).
Proof. reflexivity. Qed.

Lemma parse_radix_digits radix f n acc a :
  2 <= radix <= 36 -> 0 <= n < radix ^ Z.of_nat (S f) ->
  exists k, 0 <= k /\ parse_digits radix (radix_digits radix (S f) n acc) a =
            parse_digits radix acc (Some (default 0 a * radix ^ k + n)).
Proof.
  intros Hr. revert n acc a. induction f as [|f IH]; intros n acc a Hn;
    rewrite radix_digits_S; destruct (Z.ltb_spec n radix).
  1,3: exists 1; split; [lia|]; cbn [parse_digits]; rewrite Z.mod_small by lia;
       rewrite radix_digit_value by lia;
       destruct (Z.ltb_spec n radix); [|lia]; rewrite Z.pow_1_r; reflexivity.
  - cbn in Hn. lia.
  - assert (Hq : 0 <= n / radix < radix ^ Z.of_nat (S f)).
    { split; [apply Z.div_pos; lia|]. apply Z.div_lt_upper_bound; [lia|].
      rewrite <- Z.pow_succ_r by lia.
      replace (Z.succ (Z.of_nat (S f))) with (Z.of_nat (S (S f))) by lia. lia. }
    destruct (IH (n / radix) (String (radix_digit (n mod radix)) acc) a Hq) as (k & Hk0 & Hk).
    rewrite Hk. exists (k + 1). split; [lia|]. cbn [parse_digits].
    pose proof (Z.mod_pos_bound n radix ltac:(lia)).
    rewrite radix_digit_value by lia.
    destruct (Z.ltb_spec (n mod radix) radix); [|lia].
    f_equal. f_equal.
    rewrite Z.pow_add_r, Z.pow_1_r by lia.
    pose proof (Z.div_mod n radix ltac:(lia)) as Hdm.
    remember (n / radix) as q. remember (n mod radix) as m'. rewrite Hdm. change (default 0 (Some ?x)) with x. generalize (default 0 a). intros d. ring.
Qed.

Lemma radix_digits_fuel n : 0 <= n -> n < 36 ^ Z.of_nat (S (Z.to_nat (Z.log2 n))).
Proof.
  intros Hn. pose proof (Z.log2_nonneg n).
  replace (Z.of_nat (S (Z.to_nat (Z.log2 n)))) with (Z.succ (Z.log2 n)) by lia.
  destruct (Z.eq_dec n 0) as [->|Hn0]; [cbn; lia|].
  destruct (Z.log2_spec n) as [_ Hlt]; [lia|].
  eapply Z.lt_le_trans; [exact Hlt|].
  apply Z.pow_le_mono_l. lia.
Qed.

Lemma parse_digits_stop c rest acc : digit_value c = 36 -> parse_digits 36 (String c rest) acc = acc.
Proof. intros H. cbn [parse_digits]. rewrite H. reflexivity. Qed.

Lemma parse_to_radix_36 n rest :
  0 <= n -> parse_digits 36 (to_radix_string 36 n +s+ String "_" rest) None = Some n.
Proof.
  intros Hn. unfold to_radix_string.
  rewrite Z.abs_eq by lia. destruct (Z.ltb_spec n 0); [lia|].
  rewrite radix_digits_app. change ("" +s+ ?x) with x.
  assert (Hf : 0 <= n < 36 ^ Z.of_nat (S (Z.to_nat (Z.log2 n))))
    by (split; [lia | apply radix_digits_fuel; lia]).
  destruct (parse_radix_digits 36 (Z.to_nat (Z.log2 n)) n (String "_" rest) None
              ltac:(lia) Hf) as (k & _ & ->).
  rewrite parse_digits_stop by reflexivity. f_equal; lia.
Qed.

Lemma append_empty_l (s : string) : "" +s+ s = s.
Proof. reflexivity. Qed.

Lemma append_cons c (s t : string) : String c s +s+ t = String c (s +s+ t).
Proof. reflexivity. Qed.

Lemma append_cancel_l (s a b : string) : s +s+ a = s +s+ b -> a = b.
Proof. induction s as [|c s IH]; cbn; [auto|]. intros H. injection H. exact IH. Qed.

Lemma to_radix_36_neg n : n < 0 ->
  to_radix_string 36 n = String "-" (to_radix_string 36 (- n)).
Proof.
  intros Hn. unfold to_radix_string.
  destruct (Z.ltb_spec n 0); [|lia]. destruct (Z.ltb_spec (- n) 0); [lia|].
  rewrite Z.abs_neq, Z.abs_eq by lia. reflexivity.
Qed.

(** *** Properties *)

(** X1: the request built by [useVoting]'s [castVote] never passes
    validation, since it carries no verification code: [submitVote]
    answers with failure, with the message "Missing required fields"
    when the election id, candidate id or user id is empty and
    "Invalid verification code" otherwise. No external call is made, the
    record ends [failed], and a retry is scheduled while the retry count
    [r] is below [maxRetries]. *)
Theorem useVoting_submitVote_fails e electionId_ candidateId_ userId walletAddress token_ now w :
  let request := useVoting_request electionId_ candidateId_ userId walletAddress token_ now in
  let id := generateSubmissionId request (env_id_random e) in
  let r := default 0 (retryAttempts w !! id) in
  exists resp w', submitVote e request w = (Ok resp, w') /\
    success resp = false /\
    r_error resp = Some (if truthy electionId_ && truthy candidateId_ && truthy userId
                         then "Invalid verification code" else "Missing required fields") /\
    trace w' = trace w /\ wallet w' = wallet w /\
    (exists st, statusCache w' !! id = Some st /\ status st = Failed) /\
    (r < maxRetries -> timers w' = timers w ++ [(retryDelay * (r + 1), id)]) /\
    (maxRetries <= r -> timers w' = timers w /\ submissionQueue w' !! id = None).
Proof.
  intros request id r.
  unfold submitVote, catch_err, submitVote_body. fold id.
  unfold mbind, M_bind, modify_world. cbn -[validateSubmission updateStatus submitVote_onError generateSubmissionId].
  unfold request. rewrite useVoting_validation. fold request.
  cbn -[validateSubmission updateStatus submitVote_onError generateSubmissionId].
  erewrite submitVote_onError_eq by (cbn; apply lookup_insert_eq).
  cbn -[validateSubmission updateStatus submitVote_onError generateSubmissionId]. fold r.
  destruct (Z.ltb_spec r maxRetries); do 2 eexists; (split; [reflexivity|]); cbn.
  all: destruct (truthy electionId_), (truthy candidateId_), (truthy userId); cbn.
  all: repeat split; try lia; try (eexists; split; [apply lookup_insert_eq | reflexivity]).
  all: apply lookup_delete_eq.
Qed.

(** X2: when [submitVote] reports success, the response carries the
    submission id, the status record of that id is [confirmed] with the
    response's transaction hash and block number, the id has left the
    queue and the retry counts (so cancelling it now returns [false]), no
    timer was scheduled, and a vote transaction was sent. *)
Theorem submitVote_success e request w resp w' :
  submitVote e request w = (Ok resp, w') -> success resp = true ->
  let id := generateSubmissionId request (env_id_random e) in
  r_voteId resp = Some id /\
  getSubmissionStatus id w' =
    Some (mkStatus id Confirmed (r_transactionHash resp) (r_blockNumber resp) (Some 1) None
            (env_now_submit e) (Some (env_now_confirm e))) /\
  submissionQueue w' !! id = None /\ retryAttempts w' !! id = None /\
  timers w' = timers w /\
  fst (cancelSubmission id w') = Ok false /\
  exists evs, trace w' = trace w ++ evs /\ In EvVoteTx evs.
Proof.
  intros Hrun Hs id. revert Hrun.
  unfold submitVote, catch_err, submitVote_body. fold id.
  unfold mbind, M_bind, modify_world. sv_cbn.
  run_sub. sv_cbn.
  destruct v as [[|] vmsg]; sv_cbn.
  2: { on_err. destruct (_ <? _); intros [= <- _]; discriminate. }
  upd.
  match goal with |- context [submitToBlockchain ?e ?r ?W] =>
    destruct (submitToBlockchain_success e r W) as (b & a & bevs & Hb & Hbt); rewrite Hb end.
  sv_cbn. destruct (success b) eqn:Hsb; sv_cbn.
  2: { on_err. destruct (_ <? _); intros [= <- _]; discriminate. }
  run_sub. sv_cbn. destruct (success k) eqn:Hsk; sv_cbn.
  2: { on_err. destruct (_ <? _); intros [= <- _]; discriminate. }
  upd. intros [= <- <-]. cbn.
  split; [reflexivity|].
  unfold getSubmissionStatus, cancelSubmission, get_world, mbind, M_bind; cbn.
  rewrite lookup_insert_eq, !lookup_delete_eq. cbn.
  split; [unfold apply_updates, override; cbn;
          destruct (r_transactionHash b), (r_blockNumber b); reflexivity|].
  repeat split.
  eexists. split; [rewrite <- !app_assoc; reflexivity|].
  rewrite !in_app_iff. right. left. exact (Hbt eq_refl).
Qed.

Lemma submitVote_success_witness :
  let e := healthy_env "k3j5x9" sample_time in
  let res := submitVote e sample_request empty_world in
  let resp := match fst res with Ok r => r | Err _ => empty_response end in
  let w' := snd res in
  let id := generateSubmissionId sample_request (env_id_random e) in
  r_voteId resp = Some id /\
  getSubmissionStatus id w' =
    Some (mkStatus id Confirmed (r_transactionHash resp) (r_blockNumber resp) (Some 1) None
            (env_now_submit e) (Some (env_now_confirm e))) /\
  submissionQueue w' !! id = None /\ retryAttempts w' !! id = None /\
  timers w' = timers empty_world /\
  fst (cancelSubmission id w') = Ok false /\
  exists evs, trace w' = trace empty_world ++ evs /\ In EvVoteTx evs.
Proof.
  intros e res resp w' id.
  apply (submitVote_success e sample_request empty_world resp w'); vm_compute; reflexivity.
Defined.

(** X3: [submitVote] never rejects, and it leaves the record of its
    submission id [confirmed] or [failed], so that record is not among
    [getPendingSubmissions]. Either no timer is added and the id has left
    the queue, or exactly one retry timer for the id is added (when the
    retry count [r] is below [maxRetries]) and the request stays queued. *)
Theorem submitVote_settles_record e request w :
  let id := generateSubmissionId request (env_id_random e) in
  let r := default 0 (retryAttempts w !! id) in
  let w' := snd (submitVote e request w) in
  (exists resp, fst (submitVote e request w) = Ok resp) /\
  (exists st, getSubmissionStatus id w' = Some st /\
     (status st = Confirmed \/ status st = Failed) /\ ~ In st (getPendingSubmissions w')) /\
  ((timers w' = timers w /\ submissionQueue w' !! id = None) \/
   (r < maxRetries /\ timers w' = timers w ++ [(retryDelay * (r + 1), id)] /\
    submissionQueue w' !! id = Some request)).
Proof.
  intros id r w'.
  destruct (submitVote e request w) as [res w''] eqn:E. unfold w'; cbn [fst snd].
  destruct (submitVote_paths e request w res w'' E) as (resp & st & -> & Hc & Hst & Hq).
  fold id r in Hq, Hc.
  split; [eauto|]. split.
  - exists st. unfold getSubmissionStatus. rewrite Hc, lookup_insert_eq.
    split; [reflexivity|]. split; [exact Hst|].
    unfold getPendingSubmissions. rewrite filter_In. intros [_ Hp].
    unfold is_pending_status in Hp. destruct Hst as [Hst|Hst]; rewrite Hst in Hp; discriminate.
  - destruct Hq as [(Hq & _ & Ht)|(Hr & Hq & _ & Ht)]; [left|right].
    + rewrite Hq, lookup_delete_eq. auto.
    + rewrite Hq, lookup_insert_eq. auto.
Qed.

(** X4: [submitVote] leaves the queue entry, status record and retry
    count of every other id unchanged, and schedules no timer for another
    id. *)
Theorem submitVote_frame e request w id'
    (Hne : id' <> generateSubmissionId request (env_id_random e)) :
  let w' := snd (submitVote e request w) in
  submissionQueue w' !! id' = submissionQueue w !! id' /\
  statusCache w' !! id' = statusCache w !! id' /\
  retryAttempts w' !! id' = retryAttempts w !! id' /\
  (forall d x, In (d, x) (timers w') -> In (d, x) (timers w) \/ x <> id').
Proof.
  intros w'.
  destruct (submitVote e request w) as [res w''] eqn:E. unfold w'; cbn [fst snd].
  destruct (submitVote_paths e request w res w'' E) as (resp & st & _ & Hc & _ & Hq).
  rewrite Hc, lookup_insert_ne by congruence.
  destruct Hq as [(Hq & Hr & Ht)|(_ & Hq & Hr & Ht)]; rewrite Hq, Hr, Ht.
  - rewrite !lookup_delete_ne by congruence. auto.
  - rewrite !lookup_insert_ne by congruence. repeat split.
    intros d x Hin. apply in_app_iff in Hin as [Hin|[Hin|[]]]; [left; exact Hin|right].
    injection Hin as _ <-. congruence.
Qed.

Lemma submitVote_frame_witness :
  let e := healthy_env "zzzzzz" sample_time in
  let w' := snd (submitVote e sample_request inflight_world) in
  inflight_id <> generateSubmissionId sample_request (env_id_random e) /\
  (submissionQueue w' !! inflight_id = submissionQueue inflight_world !! inflight_id /\
   statusCache w' !! inflight_id = statusCache inflight_world !! inflight_id /\
   retryAttempts w' !! inflight_id = retryAttempts inflight_world !! inflight_id /\
   (forall d x, In (d, x) (timers w') -> In (d, x) (timers inflight_world) \/ x <> inflight_id)).
Proof.
  intros e w'.
  assert (H : inflight_id <> generateSubmissionId sample_request (env_id_random e))
    by (vm_compute; discriminate).
  split; [exact H|]. exact (submitVote_frame e sample_request inflight_world _ H).
Defined.

(** X5: when the new run draws an id different from the one being
    retried, [retrySubmission] leaves the status record, queue entry and
    retry count of the retried id unchanged: the failed record is never
    updated by its retries. *)
Theorem retrySubmission_keeps_old_record e id w
    (Hfresh : forall request, submissionQueue w !! id = Some request ->
                generateSubmissionId request (env_id_random e) <> id) :
  let w' := snd (retrySubmission e id w) in
  statusCache w' !! id = statusCache w !! id /\
  submissionQueue w' !! id = submissionQueue w !! id /\
  retryAttempts w' !! id = retryAttempts w !! id.
Proof.
  intros w'. unfold w', retrySubmission, get_world, mbind, M_bind at 1. cbn.
  destruct (submissionQueue w !! id) as [request|] eqn:Hq; [|auto].
  specialize (Hfresh request eq_refl).
  unfold mbind, M_bind.
  destruct (submitVote e request w) as [res w''] eqn:E.
  destruct (submitVote_paths e request w res w'' E) as (resp & st & -> & Hc & _ & Hqr).
  cbn. rewrite Hc, lookup_insert_ne by congruence.
  destruct Hqr as [(Hq' & Hr & _)|(_ & Hq' & Hr & _)]; rewrite Hq', Hr.
  - rewrite !lookup_delete_ne by congruence. rewrite Hq. auto.
  - rewrite !lookup_insert_ne by congruence. rewrite Hq. auto.
Qed.

Lemma retrySubmission_keeps_old_record_witness :
  let e := healthy_env "zzzzzz" sample_time in
  (forall request, submissionQueue inflight_world !! inflight_id = Some request ->
     generateSubmissionId request (env_id_random e) <> inflight_id) /\
  (let w' := snd (retrySubmission e inflight_id inflight_world) in
   statusCache w' !! inflight_id = statusCache inflight_world !! inflight_id /\
   submissionQueue w' !! inflight_id = submissionQueue inflight_world !! inflight_id /\
   retryAttempts w' !! inflight_id = retryAttempts inflight_world !! inflight_id).
Proof.
  intros e.
  assert (H : forall request, submissionQueue inflight_world !! inflight_id = Some request ->
                generateSubmissionId request (env_id_random e) <> inflight_id).
  { intros request Hq. vm_compute in Hq. injection Hq as <-. vm_compute. discriminate. }
  split; [exact H|]. exact (retrySubmission_keeps_old_record e inflight_id inflight_world H).
Defined.

(** X6: after a successful [cancelSubmission], a retry timer of that id
    that fires does nothing, and cancelling the id again returns [false]
    without changing anything. *)
Theorem cancel_then_retry_noop e id w w1 :
  cancelSubmission id w = (Ok true, w1) ->
  retrySubmission e id w1 = (Ok tt, w1) /\ cancelSubmission id w1 = (Ok false, w1).
Proof.
  unfold cancelSubmission, retrySubmission, updateStatus, get_world, modify_world,
    mbind, M_bind, mret, M_ret.
  cbn. destruct (submissionQueue w !! id) eqn:Hq; cbn; [|discriminate].
  destruct (statusCache w !! id); cbn; intros [= <-]; cbn; rewrite lookup_delete_eq; auto.
Qed.

Lemma cancel_then_retry_noop_witness :
  cancelSubmission inflight_id inflight_world = (Ok true, snd (cancelSubmission inflight_id inflight_world)) /\
  retrySubmission (healthy_env "k3j5x9" sample_time) inflight_id (snd (cancelSubmission inflight_id inflight_world)) = (Ok tt, snd (cancelSubmission inflight_id inflight_world)) /\
  cancelSubmission inflight_id (snd (cancelSubmission inflight_id inflight_world)) = (Ok false, snd (cancelSubmission inflight_id inflight_world)).
Proof.
  assert (H : cancelSubmission inflight_id inflight_world = (Ok true, snd (cancelSubmission inflight_id inflight_world))) by (vm_compute; reflexivity).
  split; [exact H|]. apply (cancel_then_retry_noop _ _ _ _ H).
Defined.

(** X7: [getStatistics] counts every status record once: [total] is the
    number of records and the sum of the five per-status counts, and
    [pending + processing] is the length of [getPendingSubmissions]. *)
Theorem getStatistics_consistent w :
  let s := getStatistics w in
  total s = Z.of_nat (size (statusCache w)) /\
  total s = pending s + processing s + confirmed s + failed s + rejected s /\
  pending s + processing s = Z.of_nat (List.length (getPendingSubmissions w)).
Proof.
  cbn zeta. unfold getStatistics, getPendingSubmissions.
  rewrite map_fold_foldr, <- length_map_to_list. apply count_foldr.
Qed.

(** X8: [clearOldSubmissions] removes an id from the status cache, the
    queue and the retry counts exactly when its status record is older
    than [maxAge]; every other entry, including a queue entry without a
    status record, is kept, and the timers, wallet and trace are
    unchanged. *)
Theorem clearOldSubmissions_spec now maxAge w id :
  let w' := snd (clearOldSubmissions now maxAge w) in
  let stale := match statusCache w !! id with
               | Some st => now - submittedAt st >? maxAge
               | None => false end in
  statusCache w' !! id = (if stale then None else statusCache w !! id) /\
  submissionQueue w' !! id = (if stale then None else submissionQueue w !! id) /\
  retryAttempts w' !! id = (if stale then None else retryAttempts w !! id) /\
  timers w' = timers w /\ wallet w' = wallet w /\ trace w' = trace w.
Proof.
  cbn zeta. unfold clearOldSubmissions, modify_world. cbn [snd].
  set (l := map fst _).
  assert (Hl : In id l <-> match statusCache w !! id with
               | Some st => ((now - submittedAt st) >? maxAge) = true | None => False end).
  { unfold l. rewrite in_map_iff. split.
    - intros [[i st] [Hi Hf]]. cbn in Hi. subst i. apply filter_In in Hf as [Hm Hp].
      apply list_elem_of_In, elem_of_map_to_list in Hm. rewrite Hm. exact Hp.
    - destruct (statusCache w !! id) as [st|] eqn:Hc; [|intros []].
      intros Hp. exists (id, st). split; [reflexivity|]. apply filter_In. split; [|exact Hp].
      apply list_elem_of_In, elem_of_map_to_list. exact Hc. }
  destruct (fold_clear_id l w id) as (Hin & Hout & Ht & Hp & Ha & Htr).
  destruct (statusCache w !! id) as [st|] eqn:Hc; [destruct ((now - submittedAt st) >? maxAge)|].
  - destruct (Hin (proj2 Hl eq_refl)) as (H1 & H2 & H3). repeat split; assumption.
  - destruct (Hout (fun H => diff_false_true (proj1 Hl H))) as (H1 & H2 & H3). repeat split; assumption.
  - destruct (Hout (proj1 Hl)) as (H1 & H2 & H3). repeat split; assumption.
Qed.

(** X9: two submission ids coincide exactly when the requests'
    timestamps and the random parts coincide. *)
Theorem generateSubmissionId_injective r1 r2 x1 x2 :
  generateSubmissionId r1 x1 = generateSubmissionId r2 x2 <->
  timestamp r1 = timestamp r2 /\ x1 = x2.
Proof.
  unfold generateSubmissionId. split; [|intros [-> ->]; reflexivity].
  intros H. cbn [String.append] in H. injection H as H. rewrite ?append_cons, ?append_empty_l in H.
  assert (Ht : timestamp r1 = timestamp r2).
  { destruct (Z.ltb_spec (timestamp r1) 0), (Z.ltb_spec (timestamp r2) 0).
    - rewrite (to_radix_36_neg (timestamp r1)), (to_radix_36_neg (timestamp r2)) in H
        by assumption. rewrite !append_cons in H. injection H as H. apply (f_equal (fun s => parse_digits 36 s None)) in H.
      rewrite !parse_to_radix_36 in H by lia. injection H. lia.
    - rewrite to_radix_36_neg in H by assumption. rewrite append_cons in H.
      apply (f_equal (fun s => parse_digits 36 s None)) in H.
      rewrite parse_digits_stop in H by reflexivity.
      rewrite parse_to_radix_36 in H by lia. discriminate.
    - rewrite (to_radix_36_neg (timestamp r2)) in H by assumption. rewrite append_cons in H.
      apply (f_equal (fun s => parse_digits 36 s None)) in H.
      rewrite (parse_digits_stop "-") in H by reflexivity.
      rewrite parse_to_radix_36 in H by lia. discriminate.
    - apply (f_equal (fun s => parse_digits 36 s None)) in H.
      rewrite !parse_to_radix_36 in H by lia. injection H. auto. }
  split; [exact Ht|]. rewrite Ht in H. apply append_cancel_l in H. injection H. auto.
Qed.

(** X10: [getTransactionDetails] reports success exactly when the
    provider is set and both the transaction and its receipt are found;
    otherwise it carries no transaction and its error is the provider
    message, the message of the failed call, or "Transaction not found". *)
Theorem getTransactionDetails_outcome p txr rcr :
  let d := getTransactionDetails p txr rcr in
  (t_success d = true <->
     p = true /\ exists tx rc, txr = COk (Some tx) /\ rcr = COk (Some rc)) /\
  (t_success d = false -> t_transaction d = None /\
     t_error d = Some (if negb p then "Blockchain provider not initialized" else
                       match txr, rcr with
                       | CThrow m, _ => m
                       | COk _, CThrow m => m
                       | COk _, COk _ => "Transaction not found"
                       end)).
Proof.
  cbn zeta. unfold getTransactionDetails.
  destruct p; cbn; [|split; [split; [discriminate|intros [[=] _]] | auto]].
  destruct txr as [[tx|]|m]; destruct rcr as [[rc|]|m']; cbn.
  all: split; [split|].
  all: first [ intros _; split; [reflexivity|]; do 2 eexists; split; reflexivity
             | discriminate
             | intros (_ & tx' & rc' & E1 & E2); discriminate
             | intros _; split; reflexivity ].
Qed.

(** X11: a vote of the history is shown as "Verified" exactly when the
    transaction and its receipt are found with receipt status 1, as
    "Failed" when both are found with another status, and as
    "Pending Verification" otherwise. *)
Theorem history_status_cases p txr rcr :
  let s := history_status (getTransactionDetails p txr rcr) in
  (s = "Verified" <-> p = true /\ exists tx rc,
     txr = COk (Some tx) /\ rcr = COk (Some rc) /\ rc_status rc = Some 1) /\
  (s = "Failed" <-> p = true /\ exists tx rc,
     txr = COk (Some tx) /\ rcr = COk (Some rc) /\ rc_status rc <> Some 1) /\
  (s = "Pending Verification" <-> ~ (p = true /\ exists tx rc,
     txr = COk (Some tx) /\ rcr = COk (Some rc))).
Proof.
  cbn zeta. unfold history_status, getTransactionDetails.
  destruct p, txr as [[tx|]|m], rcr as [[rc|]|m']; cbn;
    try case_bool_decide as Hs; cbn.
  all: repeat split; unfold not; intros;
       repeat match goal with
              | H : _ /\ _ |- _ => destruct H
              | H : exists _, _ |- _ => destruct H
              | H : COk _ = COk _ |- _ => injection H as H; subst
              end;
       try discriminate; try congruence;
       try (exfalso; match goal with H : _ -> False |- _ => apply H end;
            split; [reflexivity|]; eauto).
  all: try (split; [reflexivity|]; do 2 eexists; repeat split; assumption).
  all: do 2 eexists; repeat split; assumption.
Qed.

(** X12: [castVote] never throws and changes nothing but the trace. It
    sends the vote transaction exactly when a wallet is connected and
    [parseInt] accepts the candidate id, and reports success exactly when
    it sent it and the transaction's receipt came back. *)
Theorem castVote_never_throws e c w :
  exists r evs, castVote e c w = (Ok r, add_trace w (EvCastVote :: evs)) /\
    (In EvVoteTx evs <-> wallet w <> None /\ parseInt c <> None) /\
    (b_success r = true <-> In EvVoteTx evs /\ exists h b, env_vote_tx e = COk (h, b)) /\
    (wallet w = None -> b_error r = Some "Wallet not connected") /\
    (wallet w <> None -> parseInt c = None -> b_error r = Some "Invalid candidate ID").
Proof.
  unfold castVote, emit, catch_err, await_call, get_world, throw,
    mbind, M_bind, mret, M_ret.
  destruct w as [q cc ra t p [a|] tr]; cbn;
    [destruct (parseInt c) as [n|]; cbn; [destruct (env_vote_tx e) as [[h b]|m]|]|].
  all: do 2 eexists; (split; [unfold add_trace; cbn; rewrite <- ?app_assoc; reflexivity|]).
  all: cbn; intuition (try discriminate; try congruence; eauto).
  destruct H1 as (? & ? & ?); discriminate.
Qed.

(** X13: [registerVoter] never throws and changes nothing but the trace.
    It sends the registration transaction exactly when a wallet is
    connected, and reports success exactly when, in addition, the
    transaction's receipt came back. *)
Theorem registerVoter_never_throws e a w :
  exists r evs, registerVoter e a w = (Ok r, add_trace w evs) /\
    (evs = [EvRegisterVoterTx] /\ wallet w <> None \/ evs = [] /\ wallet w = None) /\
    (b_success r = true <-> wallet w <> None /\ exists h b, env_register_tx e = COk (h, b)) /\
    (wallet w = None -> b_error r = Some "Wallet not connected").
Proof.
  unfold registerVoter, emit, catch_err, await_call, get_world, throw,
    mbind, M_bind, mret, M_ret.
  destruct w as [q cc ra t p [x|] tr]; cbn;
    [destruct (env_register_tx e) as [[h b]|m]|].
  all: first [ do 2 eexists; split; [unfold add_trace; cbn; rewrite <- ?app_assoc; reflexivity|]
             | eexists; exists []; split; [unfold add_trace; cbn; rewrite app_nil_r; reflexivity|] ].
  all: cbn; intuition (try discriminate; try congruence; eauto).
  all: match goal with H : exists _ _, _ |- _ => destruct H as (? & ? & ?) end; discriminate.
Qed.

(** X14: when the balance query fails after the wallet was constructed,
    [connectWallet] throws "Failed to connect wallet: " followed by the
    error message, yet the new wallet stays connected. *)
Theorem connectWallet_balance_failure_keeps_wallet e key w a m
    (Hp : provider_ok w = true) (Ha : env_wallet_ctor e = COk a) (Hb : env_balance e = CThrow m) :
  connectWallet e key w =
    (Err ("Failed to connect wallet: " +s+ m),
     add_trace_wallet w (Some a) [EvConnectWallet]).
Proof.
  unfold connectWallet, emit, catch_err, await_call, get_world, throw, modify_world,
    mbind, M_bind, mret, M_ret.
  destruct w; cbn in Hp; subst. cbn. rewrite Ha, Hb. reflexivity.
Qed.

Lemma connectWallet_balance_failure_keeps_wallet_witness :
  connectWallet (balance_down_env "k3j5x9" sample_time) "0xKEY" empty_world =
    (Err ("Failed to connect wallet: " +s+ "could not detect network"),
     add_trace_wallet empty_world (Some "0xA11CE") [EvConnectWallet]).
Proof. apply connectWallet_balance_failure_keeps_wallet; reflexivity. Defined.

